(** * happyvertical/spider: landing-page resolution and tree expansion

    A shallow embedding of the document resolver ([scrapeDocument] and its
    three landing-page extractors), of the link extractors
    ([DomAdapter.extractLinks], [TreeScraper.extractCurrentLinks]) and of the
    tree scraper ([TreeScraper.extractLinksWithTreeExpansion],
    [TreeScraper.getCacheKey], [TreeScraper.scrape]).

    Conventions.
    - A JavaScript string is a [string]: a sequence of 8-bit units.  Case
      folding ([toLowerCase], the [i] flag of a RegExp) and [trim] act on the
      ASCII range only; the units above 127 are left alone.
    - A JavaScript number that the code uses as a counter, a delay or a
      time-to-live is a [Z]; an absent option is [None].
    - The browser, the network and the clock are parameters: a [Section]
      variable or a record of operations over an abstract world. *)

From Stdlib Require Import ZArith QArith Ascii String DecimalString DecimalZ.
From stdpp Require Import gmap strings list.

Local Open Scope string_scope.
Set Warnings "-clear-no-such-hyp".

(** ** JavaScript string primitives *)

Module Js.

(** [s.startsWith(p)] *)
Definition startsWith (s p : string) : bool := String.prefix p s.

(** [s.includes(p)] *)
Fixpoint includes (s p : string) : bool :=
  String.prefix p s ||
  match s with
  | EmptyString => false
  | String _ s' => includes s' p
  end.

(** The last [n] units of [s] ([s.slice(-n)] for [n <= s.length]). *)
Definition suffix_from (s : string) (n : nat) : string :=
  String.substring (String.length s - n) n s.

(** [s.endsWith(p)] *)
Definition endsWith (s p : string) : bool :=
  (String.length p <=? String.length s)%nat &&
  String.eqb (suffix_from s (String.length p)) p.

Definition is_upper (c : ascii) : bool :=
  let n := nat_of_ascii c in ((65 <=? n) && (n <=? 90))%nat.

Definition lower_ascii (c : ascii) : ascii :=
  if is_upper c then ascii_of_nat (nat_of_ascii c + 32) else c.

(** [s.toLowerCase()] *)
Fixpoint toLowerCase (s : string) : string :=
  match s with
  | EmptyString => EmptyString
  | String c s' => String (lower_ascii c) (toLowerCase s')
  end.

(** White space of [trim]: TAB, LF, VT, FF, CR and SPACE. *)
Definition is_space (c : ascii) : bool :=
  let n := nat_of_ascii c in (((9 <=? n) && (n <=? 13)) || (n =? 32))%nat.

Fixpoint trimStart (s : string) : string :=
  match s with
  | EmptyString => EmptyString
  | String c s' => if is_space c then trimStart s' else s
  end.

Fixpoint all_space (s : string) : bool :=
  match s with
  | EmptyString => true
  | String c s' => is_space c && all_space s'
  end.

Fixpoint trimEnd (s : string) : string :=
  match s with
  | EmptyString => EmptyString
  | String c s' => if all_space s then EmptyString else String c (trimEnd s')
  end.

(** [s.trim()] *)
Definition trim (s : string) : string := trimEnd (trimStart s).

(** [s.split(' ')]: the pieces between single spaces, empty pieces kept. *)
Fixpoint split_space_aux (s : string) (cur : string) : list string :=
  match s with
  | EmptyString => [cur]
  | String c s' =>
      if Ascii.eqb c " "%char then cur :: split_space_aux s' EmptyString
      else split_space_aux s' (cur ++ String c EmptyString)
  end.

Definition split_space (s : string) : list string := split_space_aux s EmptyString.

(** Truthiness of a string: the empty string is falsy. *)
Definition truthy (s : string) : bool := negb (String.eqb s EmptyString).

(** [s.replace(/pat/g, rep)] for a literal, non-empty [pat]: the matches are
    found left to right and do not overlap.  [skip] counts the units of the
    current match that are still to be dropped. *)
Fixpoint replaceAll_aux (pat rep s : string) (skip : nat) : string :=
  match s with
  | EmptyString => EmptyString
  | String c s' =>
      match skip with
      | S n => replaceAll_aux pat rep s' n
      | O =>
          if String.prefix pat s
          then rep ++ replaceAll_aux pat rep s' (String.length pat - 1)
          else String c (replaceAll_aux pat rep s' 0)
      end
  end.

Definition replaceAll (pat rep s : string) : string := replaceAll_aux pat rep s 0.

End Js.

(** ** Regular expressions

    The patterns of the resolver all have the shape [pre(group)post] with the
    quantifiers [*] and [+] applied to character classes only.  [rx] is a
    backtracking matcher in continuation-passing style: alternatives are tried
    in order, quantifiers are greedy, and the first successful path wins, as
    in the ECMAScript semantics. *)

Module RegExp.

Inductive regex : Type :=
| Eps
| Class (p : ascii -> bool)      (* one unit of a character class *)
| Lit (s : string)               (* a literal, compared through [fold] *)
| Seq (r1 r2 : regex)
| Alt (r1 r2 : regex)
| Star (p : ascii -> bool)       (* greedy [p*] *)
| Plus (p : ascii -> bool).      (* greedy [p+] *)

(** A pattern: [pre], then capture group 1, then [post]; [icase] is the [i]
    flag. *)
Record pattern : Type := Pattern {
  pre : regex;
  group : regex;
  post : regex;
  icase : bool;
}.

Section Matcher.
Context {R : Type}.
Variable fold : ascii -> ascii.

Fixpoint lit (l s : string) (k : string -> option R) : option R :=
  match l with
  | EmptyString => k s
  | String a l' =>
      match s with
      | EmptyString => None
      | String c s' => if Ascii.eqb (fold a) (fold c) then lit l' s' k else None
      end
  end.

Fixpoint star (p : ascii -> bool) (s : string) (k : string -> option R) : option R :=
  match s with
  | EmptyString => k EmptyString
  | String c s' =>
      if p c then
        match star p s' k with
        | Some r => Some r
        | None => k s
        end
      else k s
  end.

Fixpoint rx (r : regex) (s : string) (k : string -> option R) : option R :=
  match r with
  | Eps => k s
  | Class p =>
      match s with
      | EmptyString => None
      | String c s' => if p c then k s' else None
      end
  | Lit l => lit l s k
  | Seq r1 r2 => rx r1 s (fun s1 => rx r2 s1 k)
  | Alt r1 r2 =>
      match rx r1 s k with
      | Some r => Some r
      | None => rx r2 s k
      end
  | Star p => star p s k
  | Plus p =>
      match s with
      | EmptyString => None
      | String c s' => if p c then star p s' k else None
      end
  end.
End Matcher.

(** The first [n] units of [s]. *)
Definition take (n : nat) (s : string) : string := String.substring 0 n s.

Definition fold_of (p : pattern) : ascii -> ascii :=
  if icase p then Js.lower_ascii else (fun c => c).

(** A match of [p] that starts at the head of [s]; the value is group 1. *)
Definition match_here (p : pattern) (s : string) : option string :=
  rx (fold_of p) (pre p) s (fun s1 =>
  rx (fold_of p) (group p) s1 (fun s2 =>
  rx (fold_of p) (post p) s2 (fun _ =>
    Some (take (String.length s1 - String.length s2) s1)))).

(** [s.match(p)] for a pattern without the [g] flag: the leftmost match;
    [Some g] carries [match[1]], [None] is [null]. *)
Fixpoint str_match (p : pattern) (s : string) : option string :=
  match match_here p s with
  | Some g => Some g
  | None =>
      match s with
      | EmptyString => None
      | String _ s' => str_match p s'
      end
  end.

(** The double quote (code 34) and the single quote (code 39). *)
Definition dquote : ascii := "034"%char.
Definition squote : ascii := "039"%char.

Definition is_quote (c : ascii) : bool :=
  Ascii.eqb c dquote || Ascii.eqb c squote.

Definition not_quote (c : ascii) : bool := negb (is_quote c).

Definition is_digit (c : ascii) : bool :=
  let n := nat_of_ascii c in ((48 <=? n) && (n <=? 57))%nat.

Definition any_of (l : list string) : regex :=
  foldr (fun s r => Alt (Lit s) r) (Class (fun _ => false)) l.

End RegExp.

(** ** Data model ([shared/types]) *)

Inductive outcome (A : Type) : Type :=
| Returned (a : A)
| Thrown (message : string).
Arguments Returned {A} a.
Arguments Thrown {A} message.

Definition bind {A B : Type} (m : outcome A) (f : A -> outcome B) : outcome B :=
  match m with
  | Returned a => f a
  | Thrown e => Thrown e
  end.

Record Link : Type := {
  href : string;
  text : string;
  title : option string;
  ariaLabel : option string;
  rel : option string;
  target : option string;
  classes : option (list string);
}.

(** The object built by [handlePlaywrightDownload]. *)
Record DownloadInfo : Type := {
  d_url : string;
  d_filename : string;
  d_contentType : option string;
  d_content : option (list ascii);
  d_error : option string;
}.

Inductive ScraperType : Type :=
| basic | tree | ajax | scroll | pagination | tabs | hybrid.

Definition ScraperType_name (t : ScraperType) : string :=
  match t with
  | basic => "basic"
  | tree => "tree"
  | ajax => "ajax"
  | scroll => "scroll"
  | pagination => "pagination"
  | tabs => "tabs"
  | hybrid => "hybrid"
  end.

Inductive SpiderName : Type := simple | dom | crawlee | crawl4ai.

(** The [config] object of a tree strategy; [None] is the empty object. *)
Record TreeConfig : Type := {
  cfg_maxIterations : option Z;
  cfg_clickDelay : option Z;
  cfg_customSelectors : option (list string);
  cfg_handleExclusive : option bool;
  cfg_headless : option bool;
}.

Record ScraperStrategy : Type := {
  s_type : ScraperType;
  s_spider : SpiderName;
  s_config : option TreeConfig;
  s_confidence : Q;
}.

Record ScrapeMetrics : Type := {
  m_duration : Z;
  m_linkCount : nat;
  m_interactionCount : nat;
  m_complete : bool;
}.

Record RawInfo : Type := {
  raw_requestUrl : string;
  raw_loadedUrl : string;
  raw_interactionCount : option nat;
  raw_isDownload : bool;
  raw_downloads : option (list DownloadInfo);
}.

Record ScrapeResult : Type := {
  r_url : string;
  r_content : string;
  r_links : list Link;
  r_strategy : ScraperStrategy;
  r_metrics : ScrapeMetrics;
  r_raw : RawInfo;
}.

(** ** The document resolver ([scrapeDocument] and its extractors) *)

(** The two fields of a parsed [URL] that the resolver reads. *)
Record URL : Type := { protocol : string; host : string }.

(** The result of [scrapeDocument].  The [text], [html], [title],
    [description] and [fileContent] fields are left out: they are produced by
    tag stripping and metadata extraction that no property below reads. *)
Record DocumentResult : Type := {
  doc_url : string;
  doc_type : string;
  doc_isDownload : bool;
  doc_filename : option string;
  doc_isPdf : bool;
  doc_complete : bool;
  doc_strategy : string;
}.

Module Resolver.
Import RegExp.

(** The five replacements applied to an extracted [href], in source order. *)
Definition decodeHtmlEntities (s : string) : string :=
  Js.replaceAll "&gt;" ">"
    (Js.replaceAll "&lt;" "<"
      (Js.replaceAll "&#039;" "'"
        (Js.replaceAll "&quot;" (String dquote EmptyString)
          (Js.replaceAll "&amp;" "&" s)))).

(** The source patterns are quoted below token by token: [Q] is the class of
    the two quote characters, [N] its complement, [D] is [\d], and the
    parentheses are capture group 1. *)
Definition href_open : regex := Seq (Lit "href=") (Class is_quote).

(** [/ href= Q ( N* wpdmdl= D+ N* ) Q /i] *)
Definition wpdmLink_re : pattern :=
  Pattern href_open
    (Seq (Star not_quote) (Seq (Lit "wpdmdl=") (Seq (Plus is_digit) (Star not_quote))))
    (Class is_quote) true.

(** [/ href= Q ( N* \.pdf N* ) Q /i] *)
Definition pdfLink_re : pattern :=
  Pattern href_open
    (Seq (Star not_quote) (Seq (Lit ".pdf") (Star not_quote)))
    (Class is_quote) true.

(** [/\?preview=(\d+)/] *)
Definition preview_re : pattern :=
  Pattern (Lit "?preview=") (Plus is_digit) Eps false.

(** [/ href= Q ( \/filepro\/document\/ D+ \/ N+ \.pdf ) Q /i] *)
Definition civicDoc_re : pattern :=
  Pattern href_open
    (Seq (Lit "/filepro/document/") (Seq (Plus is_digit) (Seq (Lit "/")
      (Seq (Plus not_quote) (Lit ".pdf")))))
    (Class is_quote) true.

(** [(pdf|doc|docx|xls|xlsx|ppt|pptx)]; its own capture is never read. *)
Definition doc_ext : regex :=
  any_of ["pdf"; "doc"; "docx"; "xls"; "xlsx"; "ppt"; "pptx"].

(** [/ href= Q ( \/dsweb\/Get\/Document- D+ \/ N+ \. doc_ext ) Q /i] *)
Definition dsGet_re : pattern :=
  Pattern href_open
    (Seq (Lit "/dsweb/Get/Document-") (Seq (Plus is_digit) (Seq (Lit "/")
      (Seq (Plus not_quote) (Seq (Lit ".") doc_ext)))))
    (Class is_quote) true.

(** [/ href= Q ( \/dsweb\/ServicesLib\/Document- D+ \/ N+ \. doc_ext ) Q /i] *)
Definition dsServices_re : pattern :=
  Pattern href_open
    (Seq (Lit "/dsweb/ServicesLib/Document-") (Seq (Plus is_digit) (Seq (Lit "/")
      (Seq (Plus not_quote) (Seq (Lit ".") doc_ext)))))
    (Class is_quote) true.

(** [/ href= Q ( \/ N* (?:docushare|dsweb) N+ \. doc_ext ) Q /i] *)
Definition dsDirect_re : pattern :=
  Pattern href_open
    (Seq (Lit "/") (Seq (Star not_quote) (Seq (Alt (Lit "docushare") (Lit "dsweb"))
      (Seq (Plus not_quote) (Seq (Lit ".") doc_ext)))))
    (Class is_quote) true.

Section WithURL.
(** [new URL(url)]; [None] when the constructor throws. *)
Variable new_URL : string -> option URL.

(** [`${urlObj.protocol}//${urlObj.host}${path}`] *)
Definition with_origin (url path : string) : outcome string :=
  match new_URL url with
  | Some u => Returned (protocol u ++ "//" ++ host u ++ path)
  | None => Thrown "TypeError: Invalid URL"
  end.

(** "Make absolute if relative" in the WordPress extractor. *)
Definition absolute_if_slash (url link : string) : outcome string :=
  if Js.startsWith link "/" then with_origin url link else Returned link.

Definition extractWordPressDownloadUrl (url html : string) : outcome (option string) :=
  let hasWpdmInUrl := Js.includes url "wpdmdl=" in
  let isWpdmPage :=
    Js.includes url "/download/" ||
    Js.includes html "wpdm-download-link" ||
    Js.includes html "wpdm_view_count" in
  if hasWpdmInUrl then Returned None
  else if negb isWpdmPage then Returned None
  else
    match str_match wpdmLink_re html with
    | Some g =>
        bind (absolute_if_slash url (decodeHtmlEntities g)) (fun downloadUrl =>
        Returned (Some downloadUrl))
    | None =>
        match str_match pdfLink_re html with
        | Some g =>
            bind (absolute_if_slash url (decodeHtmlEntities g)) (fun pdfUrl =>
            Returned (Some pdfUrl))
        | None => Returned None
        end
    end.

Definition extractCivicWebDocumentUrl (url html : string) : outcome (option string) :=
  let isCivicWebPreview :=
    Js.includes url "/filepro/documents/?preview=" ||
    (Js.includes url "civicweb.net" && Js.includes url "/filepro/documents") in
  if negb isCivicWebPreview then Returned None
  else
    match str_match preview_re url with
    | None => Returned None
    | Some _docId =>
        match str_match civicDoc_re html with
        | Some g =>
            bind (with_origin url (decodeHtmlEntities g)) (fun docUrl =>
            Returned (Some docUrl))
        | None => Returned None
        end
    end.

Definition extractDocuShareDocumentUrl (url html : string) : outcome (option string) :=
  let isDocuSharePage :=
    Js.includes url "/docushare/dsweb/" ||
    Js.includes url "DocuShare" ||
    Js.includes html "DocuShare" ||
    Js.includes html "/dsweb/Get/" ||
    Js.includes html "/dsweb/ServicesLib/" in
  if negb isDocuSharePage then Returned None
  else
    match str_match dsGet_re html with
    | Some g =>
        bind (with_origin url (decodeHtmlEntities g)) (fun docUrl =>
        Returned (Some docUrl))
    | None =>
        match str_match dsServices_re html with
        | Some g =>
            bind (with_origin url (decodeHtmlEntities g)) (fun docUrl =>
            Returned (Some docUrl))
        | None =>
            match str_match dsDirect_re html with
            | Some g =>
                bind (with_origin url (decodeHtmlEntities g)) (fun docUrl =>
                Returned (Some docUrl))
            | None => Returned None
            end
        end
    end.

(** [if (x)] on a [string | null]: [null] and the empty string are falsy. *)
Definition truthy_url (o : option string) : option string :=
  match o with
  | Some s => if Js.truthy s then Some s else None
  | None => None
  end.

(** [scraper.scrape(normalizedUrl, options)] of the scraper that
    [getScraper] returned. *)
Variable scrape : string -> outcome ScrapeResult.

Definition normalizeUrl (url : string) : string :=
  if Js.includes url "/download/" && negb (Js.includes url "?") && negb (Js.endsWith url "/")
  then url ++ "/" else url.

Definition download_result (normalizedUrl : string) (download : DownloadInfo) : DocumentResult :=
  let filename := d_filename download in
  let isPdf := Js.endsWith (Js.toLowerCase filename) ".pdf" in
  let contentType :=
    if isPdf then "application/pdf"
    else if Js.endsWith (Js.toLowerCase filename) ".doc" then "application/msword"
    else if Js.endsWith (Js.toLowerCase filename) ".docx"
    then "application/vnd.openxmlformats-officedocument.wordprocessingml.document"
    else "application/octet-stream" in
  {| doc_url := if Js.truthy (d_url download) then d_url download else normalizedUrl;
     doc_type := contentType;
     doc_isDownload := true;
     doc_filename := Some (d_filename download);
     doc_isPdf := isPdf;
     doc_complete :=
       bool_decide (is_Some (d_content download)) &&
       negb (from_option Js.truthy false (d_error download));
     doc_strategy := "direct-download" |}.

Definition link_result (link type strategy : string) (isPdf : bool) : DocumentResult :=
  {| doc_url := link;
     doc_type := type;
     doc_isDownload := false;
     doc_filename := None;
     doc_isPdf := isPdf;
     doc_complete := false;
     doc_strategy := strategy |}.

Definition scrapeDocument (url : string) : outcome DocumentResult :=
  let normalizedUrl := normalizeUrl url in
  bind (scrape normalizedUrl) (fun result =>
  let actualUrl := normalizedUrl in
  match raw_downloads (r_raw result) with
  | Some (download :: _) => Returned (download_result normalizedUrl download)
  | _ =>
      bind (extractWordPressDownloadUrl normalizedUrl (r_content result)) (fun wp =>
      match truthy_url wp with
      | Some wpDownloadUrl =>
          Returned (link_result wpDownloadUrl "application/pdf" "wordpress-pdf-link" true)
      | None =>
          bind (extractCivicWebDocumentUrl url (r_content result)) (fun cw =>
          match truthy_url cw with
          | Some civicWebUrl =>
              Returned (link_result civicWebUrl "application/pdf" "civicweb-pdf-link" true)
          | None =>
              bind (extractDocuShareDocumentUrl url (r_content result)) (fun ds =>
              match truthy_url ds with
              | Some docuShareUrl =>
                  let isPdf := Js.endsWith (Js.toLowerCase docuShareUrl) ".pdf" in
                  Returned (link_result docuShareUrl
                    (if isPdf then "application/pdf" else "application/octet-stream")
                    "docushare-doc-link" isPdf)
              | None =>
                  let isPdf :=
                    Js.endsWith (Js.toLowerCase url) ".pdf" ||
                    Js.includes (r_content result) "application/pdf" ||
                    Js.includes (r_content result) "%PDF-" in
                  Returned
                    {| doc_url := actualUrl;
                       doc_type := if isPdf then "application/pdf" else "text/html";
                       doc_isDownload := false;
                       doc_filename := None;
                       doc_isPdf := isPdf;
                       doc_complete := m_complete (r_metrics result);
                       doc_strategy := ScraperType_name (s_type (r_strategy result)) |}
              end)
          end)
      end)
  end).
End WithURL.

End Resolver.

(** ** Link extraction *)

(** A JavaScript [Map<string, V>]: the entries in insertion order.  [set] on a
    key that is present replaces the value and keeps the position of the
    entry. *)
Module JsMap.
Section Ops.
Context {V : Type}.

Definition t : Type := list (string * V).

Definition empty : t := [].

Fixpoint get (m : t) (k : string) : option V :=
  match m with
  | [] => None
  | (k', v) :: m' => if String.eqb k' k then Some v else get m' k
  end.

Definition has (m : t) (k : string) : bool :=
  match get m k with Some _ => true | None => false end.

Fixpoint set (m : t) (k : string) (v : V) : t :=
  match m with
  | [] => [(k, v)]
  | (k', v') :: m' =>
      if String.eqb k' k then (k', v) :: m' else (k', v') :: set m' k v
  end.

Definition keys (m : t) : list string := map fst m.
Definition values (m : t) : list V := map snd m.
End Ops.
Arguments t V : clear implicits.
End JsMap.

(** [x || undefined] on a string. *)
Definition or_undefined (s : string) : option string :=
  if Js.truthy s then Some s else None.

(** [cls.split(' ').filter((c) => c.trim())] *)
Definition class_tokens (cls : string) : list string :=
  List.filter (fun c => Js.truthy (Js.trim c)) (Js.split_space cls).

(** An [a] element as cheerio presents it: its attributes and its text. *)
Record CheerioAnchor : Type := {
  attrs : gmap string string;
  inner_text : string;
}.

Module DomAdapter.
Section WithParser.
(** [cheerio.load(html)] followed by [$('a')]: the anchors of the document,
    in document order. *)
Variable select_anchors : string -> list CheerioAnchor.

Definition link_of_anchor (a : CheerioAnchor) : option Link :=
  match attrs a !! "href" with
  | Some h =>
      if Js.truthy h then
        Some {| href := h;
                text := Js.trim (inner_text a);
                title := attrs a !! "title";
                ariaLabel := attrs a !! "aria-label";
                rel := attrs a !! "rel";
                target := attrs a !! "target";
                classes :=
                  match attrs a !! "class" with
                  | Some c => if Js.truthy c then Some (class_tokens c) else None
                  | None => None
                  end |}
      else None
  | None => None
  end.

Definition extractLinks (html : string) : list Link :=
  omap link_of_anchor (select_anchors html).
End WithParser.
End DomAdapter.

(** An [a[href]] element of the live page, as the browser presents it:
    [el_href] is the [href] property (the resolved URL). *)
Record DomAnchor : Type := {
  el_href : string;
  el_textContent : option string;
  el_title : string;
  el_ariaLabel : option string;
  el_rel : string;
  el_target : string;
  el_className : string;
}.

Module TreeScraper.

Record TreeScraperOptions : Type := {
  maxIterations : option Z;
  clickDelay : option Z;
  rateLimit : option Z;
  customSelectors : option (list string);
  handleExclusive : option bool;
  headless : option bool;
  userAgent : option string;
}.

(** [a || b] on an optional number: [undefined] and [0] are falsy. *)
Definition or_number (a : option Z) (b : Z) : Z :=
  match a with
  | Some n => if (n =? 0)%Z then b else n
  | None => b
  end.

(** The constructor: the four defaults, overridden by the fields that the
    caller gives. *)
Definition constructor (options : TreeScraperOptions) : TreeScraperOptions :=
  {| maxIterations := Some (default 10%Z (maxIterations options));
     clickDelay := Some (default 100%Z (clickDelay options));
     rateLimit := rateLimit options;
     customSelectors := customSelectors options;
     handleExclusive := Some (default true (handleExclusive options));
     headless := Some (default true (headless options));
     userAgent := userAgent options |}.

(** The double quote as a one-unit string. *)
Definition dq : string := String RegExp.dquote EmptyString.

Definition DEFAULT_SELECTORS : list string :=
  [ "li.directory.collapsed > a";
    "li.collapsed > a";
    "details summary";
    "[data-accordion-trigger]";
    "[data-toggle=" ++ dq ++ "collapse" ++ dq ++ "]";
    ".accordion-button";
    ".expand-button";
    "[role=" ++ dq ++ "button" ++ dq ++ "][aria-expanded]";
    "button[aria-expanded]" ].

(** The record that the callback of [extractCurrentLinks] builds for one
    anchor. *)
Definition link_of_element (a : DomAnchor) : Link :=
  {| href := el_href a;
     text := Js.trim (default EmptyString (el_textContent a));
     title := or_undefined (el_title a);
     ariaLabel := from_option or_undefined None (el_ariaLabel a);
     rel := or_undefined (el_rel a);
     target := or_undefined (el_target a);
     classes :=
       if Js.truthy (el_className a) then Some (class_tokens (el_className a))
       else None |}.

(** The body of the callback of [extractCurrentLinks], on the anchors that
    [document.querySelectorAll('a[href]')] returns. *)
Definition collect_links (anchors : list DomAnchor) : list Link :=
  JsMap.values
    (foldl (fun linkMap a =>
              if JsMap.has linkMap (el_href a) then linkMap
              else JsMap.set linkMap (el_href a) (link_of_element a))
           JsMap.empty anchors).

(** [for (const link of links) linkMap.set(link.href, link)] *)
Definition merge_links (linkMap : JsMap.t Link) (links : list Link) : JsMap.t Link :=
  foldl (fun m link => JsMap.set m (href link) link) linkMap links.

(** *** The live page

    The browser is a world that every operation may change; an operation
    returns the next world together with its value or the error it threw. *)
Definition M (World A : Type) : Type := World -> World * outcome A.

Record Browser (World Element : Type) : Type := {
  (** [page.$$(selector)] *)
  query_all : string -> M World (list Element);
  (** [getPath(el)], evaluated in the page by [element.evaluate] *)
  get_path : Element -> M World string;
  (** [element.isVisible()] *)
  is_visible : Element -> M World bool;
  (** the click callback of [element.evaluate] *)
  click : Element -> M World unit;
  (** [page.waitForTimeout(ms)] *)
  wait_for_timeout : Z -> M World unit;
  (** [document.querySelectorAll('a[href]')], evaluated by [page.evaluate] *)
  query_anchors : M World (list DomAnchor);
  (** [page.waitForLoadState('networkidle', { timeout })] *)
  wait_for_load_state : Z -> M World unit;
  (** [page.content()] *)
  page_content : M World string;
  (** [page.url()] *)
  page_url : World -> string;
  (** the [downloads] array, filled by the download listener *)
  downloads_of : World -> list DownloadInfo;
  (** [Date.now()] *)
  now : World -> Z;
  (** a timer: [await new Promise((resolve) => setTimeout(resolve, ms))] *)
  sleep : Z -> World -> World;
}.
Arguments query_all {World Element} _ _ _.
Arguments get_path {World Element} _ _ _.
Arguments is_visible {World Element} _ _ _.
Arguments click {World Element} _ _ _.
Arguments wait_for_timeout {World Element} _ _ _.
Arguments query_anchors {World Element} _ _.
Arguments wait_for_load_state {World Element} _ _ _.
Arguments page_content {World Element} _ _.
Arguments page_url {World Element} _ _.
Arguments downloads_of {World Element} _ _.
Arguments now {World Element} _ _.
Arguments sleep {World Element} _ _ _.

(** The variables of one run of [extractLinksWithTreeExpansion].  [attempts]
    and [iterations] are ghost fields, absent from the source: [attempts]
    lists, oldest first, the identity of every element on which the click
    callback was invoked and whether the click succeeded; [iterations] lists
    the value of [clickedInIteration] at the end of every outer iteration. *)
Record Expansion : Type := {
  linkMap : JsMap.t Link;
  interactionCount : nat;
  clickedSelectors : gset string;
  attempts : list (string * bool);
  iterations : list nat;
}.

Definition with_links (st : Expansion) (links : list Link) : Expansion :=
  {| linkMap := merge_links (linkMap st) links;
     interactionCount := interactionCount st;
     clickedSelectors := clickedSelectors st;
     attempts := attempts st;
     iterations := iterations st |}.

(** A click that threw: nothing but the ghost log changes. *)
Definition click_failed (st : Expansion) (elementId : string) : Expansion :=
  {| linkMap := linkMap st;
     interactionCount := interactionCount st;
     clickedSelectors := clickedSelectors st;
     attempts := attempts st ++ [(elementId, false)];
     iterations := iterations st |}.

(** [clickedSelectors.add(elementId); interactionCount++] *)
Definition click_done (st : Expansion) (elementId : string) : Expansion :=
  {| linkMap := linkMap st;
     interactionCount := S (interactionCount st);
     clickedSelectors := {[ elementId ]} ∪ clickedSelectors st;
     attempts := attempts st ++ [(elementId, true)];
     iterations := iterations st |}.

Definition end_iteration (st : Expansion) (clickedInIteration : nat) : Expansion :=
  {| linkMap := linkMap st;
     interactionCount := interactionCount st;
     clickedSelectors := clickedSelectors st;
     attempts := attempts st;
     iterations := iterations st ++ [clickedInIteration] |}.

Definition maxConsecutiveEmpty : nat := 2.

Section Expansion.
Context {World Element : Type}.
Variable page : Browser World Element.
(** [this.options], as the constructor left it. *)
Variable options : TreeScraperOptions.

(** [`${sel}::${getPath(el)}`] *)
Definition elementId_of (selector path : string) : string :=
  selector ++ "::" ++ path.

(** [for (const element of elements)]: the value carries
    [clickedInIteration]. *)
Fixpoint elements_loop (selector : string) (elements : list Element)
    (st : Expansion) (clickedInIteration : nat) : M World (Expansion * nat) :=
  fun w =>
  match elements with
  | [] => (w, Returned (st, clickedInIteration))
  | element :: rest =>
      match get_path page element w with
      | (w1, Thrown e) => (w1, Thrown e)
      | (w1, Returned path) =>
          let elementId := elementId_of selector path in
          if bool_decide (elementId ∈ clickedSelectors st)
          then elements_loop selector rest st clickedInIteration w1
          else
            match is_visible page element w1 with
            | (w2, Thrown e) => (w2, Thrown e)
            | (w2, Returned false) =>
                elements_loop selector rest st clickedInIteration w2
            | (w2, Returned true) =>
                (* try *)
                match click page element w2 with
                | (w3, Thrown _) =>
                    elements_loop selector rest (click_failed st elementId)
                      clickedInIteration w3
                | (w3, Returned _) =>
                    let st1 := click_done st elementId in
                    let clicked1 := S clickedInIteration in
                    match wait_for_timeout page (or_number (clickDelay options) 1000) w3 with
                    | (w4, Thrown _) => elements_loop selector rest st1 clicked1 w4
                    | (w4, Returned _) =>
                        match query_anchors page w4 with
                        | (w5, Thrown _) => elements_loop selector rest st1 clicked1 w5
                        | (w5, Returned anchors) =>
                            (* break *)
                            (w5, Returned (with_links st1 (collect_links anchors), clicked1))
                        end
                    end
                end
            end
      end
  end.

(** [for (const selector of selectors)] *)
Fixpoint selectors_loop (selectors : list string) (st : Expansion)
    (clickedInIteration : nat) : M World (Expansion * nat) :=
  fun w =>
  match selectors with
  | [] => (w, Returned (st, clickedInIteration))
  | selector :: rest =>
      match query_all page selector w with
      | (w1, Thrown e) => (w1, Thrown e)
      | (w1, Returned elements) =>
          match elements_loop selector elements st clickedInIteration w1 with
          | (w2, Thrown e) => (w2, Thrown e)
          | (w2, Returned (st', clicked')) =>
              if (0 <? clicked')%nat then (w2, Returned (st', clicked'))
              else selectors_loop rest st' clicked' w2
          end
      end
  end.

Definition all_selectors : list string :=
  DEFAULT_SELECTORS ++ default [] (customSelectors options).

(** The outer [for] loop, with [remaining] iterations left before
    [iteration] reaches the bound. *)
Fixpoint iterate (remaining : nat) (st : Expansion)
    (consecutiveEmptyIterations : nat) : M World Expansion :=
  fun w =>
  match remaining with
  | O => (w, Returned st)
  | S remaining' =>
      match selectors_loop all_selectors st 0 w with
      | (w1, Thrown e) => (w1, Thrown e)
      | (w1, Returned (st1, clickedInIteration)) =>
          let st2 := end_iteration st1 clickedInIteration in
          if (clickedInIteration =? 0)%nat then
            let empty := S consecutiveEmptyIterations in
            if (maxConsecutiveEmpty <=? empty)%nat then (w1, Returned st2)
            else iterate remaining' st2 empty w1
          else iterate remaining' st2 0 w1
      end
  end.

(** The bound of the outer loop: [this.options.maxIterations || 10]. *)
Definition iteration_bound : Z := or_number (maxIterations options) 10.

Definition initial_state (links : list Link) : Expansion :=
  {| linkMap := merge_links JsMap.empty links;
     interactionCount := 0;
     clickedSelectors := ∅;
     attempts := [];
     iterations := [] |}.

(** The run, up to the final state of its variables. *)
Definition expand : M World Expansion :=
  fun w =>
  match query_anchors page w with
  | (w1, Thrown e) => (w1, Thrown e)
  | (w1, Returned anchors) =>
      iterate (Z.to_nat iteration_bound) (initial_state (collect_links anchors)) 0 w1
  end.

Definition extractLinksWithTreeExpansion : M World (list Link * nat) :=
  fun w =>
  match expand w with
  | (w1, Thrown e) => (w1, Thrown e)
  | (w1, Returned st) => (w1, Returned (JsMap.values (linkMap st), interactionCount st))
  end.
End Expansion.

(** *** Cache keys *)

Definition is_unreserved (c : ascii) : bool :=
  let n := nat_of_ascii c in
  (((65 <=? n) && (n <=? 90)) || ((97 <=? n) && (n <=? 122)) ||
   ((48 <=? n) && (n <=? 57)))%nat ||
  existsb (Ascii.eqb c)
    ["-"; "_"; "."; "!"; "~"; "*"; "'"; "("; ")"]%char.

Definition hex_digit (n : nat) : ascii :=
  if (n <? 10)%nat then ascii_of_nat (48 + n) else ascii_of_nat (55 + n).

(** [encodeURIComponent]: every unit outside the unreserved set becomes a
    percent sign and two upper-case hexadecimal digits. *)
Fixpoint encodeURIComponent (s : string) : string :=
  match s with
  | EmptyString => EmptyString
  | String c s' =>
      if is_unreserved c then String c (encodeURIComponent s')
      else
        String "%" (String (hex_digit (nat_of_ascii c / 16))
          (String (hex_digit (nat_of_ascii c mod 16)) (encodeURIComponent s')))
  end.

(** The decimal rendering of an integral number in a template literal. *)
Definition number_to_string (n : Z) : string :=
  NilEmpty.string_of_int (Z.to_int n).

(** The options of one call of [scrape]. *)
Record ScrapeOptions : Type := {
  timeout : option Z;
  cache : option bool;
  cacheExpiry : option Z;
}.

Definition getCacheKey (options : TreeScraperOptions) (url : string)
    (_options : ScrapeOptions) : string :=
  let maxIterations := or_number (maxIterations options) 10 in
  let clickDelay := or_number (clickDelay options) 100 in
  "tree:" ++ encodeURIComponent url ++ ":" ++ number_to_string maxIterations ++
  ":" ++ number_to_string clickDelay.

(** *** [scrape] *)

(** The cache adapter as a store: a key holds the cached value and the
    time-to-live, in seconds, it was written with.  Expiry is not modelled. *)
Definition cache_get (store : gmap string (ScrapeResult * Z)) (key : string)
    : option ScrapeResult :=
  fst <$> store !! key.

Definition cache_set (store : gmap string (ScrapeResult * Z)) (key : string)
    (value : ScrapeResult) (ttl : Z) : gmap string (ScrapeResult * Z) :=
  <[ key := (value, ttl) ]> store.

(** [isDownloadError] of [shared/download-utils]. *)
Definition isDownloadError (errorMessage : string) : bool :=
  Js.includes errorMessage "Download is starting" ||
  Js.includes errorMessage "net::ERR_ABORTED".

(** What [crawler.run([url])] followed by [crawler.teardown()] does with the
    two handlers: it calls [requestHandler] on the loaded page, or calls
    [failedRequestHandler] with the error of the failed request, or calls
    neither, or throws. *)
Inductive CrawlRun (World : Type) : Type :=
| CallsRequestHandler (w : World)
| CallsFailedRequestHandler (w : World) (message : string)
| CallsNothing (w : World)
| RunThrows (w : World) (message : string).
Arguments CallsRequestHandler {World} w.
Arguments CallsFailedRequestHandler {World} w message.
Arguments CallsNothing {World} w.
Arguments RunThrows {World} w message.

(** The two variables that the handlers assign. *)
Record Captured : Type := {
  scrapeResult : option ScrapeResult;
  scrapeError : option string;
}.

Section Scrape.
Context {World Element : Type}.
Variable page : Browser World Element.
Variable run_crawler : string -> World -> CrawlRun World.
Variable options : TreeScraperOptions.

Definition tree_config : TreeConfig :=
  {| cfg_maxIterations := maxIterations options;
     cfg_clickDelay := clickDelay options;
     cfg_customSelectors := customSelectors options;
     cfg_handleExclusive := handleExclusive options;
     cfg_headless := headless options |}.

(** The result object of a page that was loaded and expanded. *)
Definition page_result (url : string) (w : World) (content : string)
    (links : list Link) (interactionCount : nat) (duration : Z) : ScrapeResult :=
  {| r_url := page_url page w;
     r_content := content;
     r_links := links;
     r_strategy :=
       {| s_type := tree;
          s_spider := crawlee;
          s_config := Some tree_config;
          s_confidence := if (0 <? interactionCount)%nat then 9 # 10 else 5 # 10 |};
     r_metrics :=
       {| m_duration := duration;
          m_linkCount := length links;
          m_interactionCount := interactionCount;
          m_complete := true |};
     r_raw :=
       {| raw_requestUrl := url;
          raw_loadedUrl := page_url page w;
          raw_interactionCount := Some interactionCount;
          raw_isDownload := false;
          raw_downloads :=
            match downloads_of page w with
            | [] => None
            | ds => Some ds
            end |} |}.

(** The result object of a request that started a download. *)
Definition download_result (url : string) (downloads : list DownloadInfo)
    (duration : Z) : ScrapeResult :=
  {| r_url := url;
     r_content := EmptyString;
     r_links := [];
     r_strategy :=
       {| s_type := tree;
          s_spider := crawlee;
          s_config := None;
          s_confidence := 8 # 10 |};
     r_metrics :=
       {| m_duration := duration;
          m_linkCount := 0;
          m_interactionCount := 0;
          m_complete := true |};
     r_raw :=
       {| raw_requestUrl := url;
          raw_loadedUrl := url;
          raw_interactionCount := None;
          raw_isDownload := true;
          raw_downloads := Some downloads |} |}.

(** The body of the [try] block of [requestHandler]. *)
Definition load_and_expand (url : string) (startTime time_out : Z)
    : M World ScrapeResult :=
  fun w =>
  match wait_for_load_state page time_out w with
  | (w1, Thrown e) => (w1, Thrown e)
  | (w1, Returned _) =>
      match wait_for_timeout page 1000 w1 with
      | (w2, Thrown e) => (w2, Thrown e)
      | (w2, Returned _) =>
          match extractLinksWithTreeExpansion page options w2 with
          | (w3, Thrown e) => (w3, Thrown e)
          | (w3, Returned (links, interactionCount)) =>
              match page_content page w3 with
              | (w4, Thrown e) => (w4, Thrown e)
              | (w4, Returned content) =>
                  (w4, Returned (page_result url w4 content links interactionCount
                                   (now page w4 - startTime)))
              end
          end
      end
  end.

(** The download branch shared by the [catch] block of [requestHandler] and
    by [failedRequestHandler]; [error] is the error to record when no
    download was captured. *)
Definition download_or_error (url : string) (startTime : Z)
    (message error : string) (w : World) : World * Captured :=
  if isDownloadError message then
    let w1 := sleep page 2000 w in
    match downloads_of page w1 with
    | [] => (w1, {| scrapeResult := None; scrapeError := Some error |})
    | ds =>
        (w1, {| scrapeResult := Some (download_result url ds (now page w1 - startTime));
                scrapeError := None |})
    end
  else (w, {| scrapeResult := None; scrapeError := Some error |}).

Definition requestHandler (url : string) (startTime time_out : Z) (w : World)
    : World * Captured :=
  match load_and_expand url startTime time_out w with
  | (w1, Returned r) => (w1, {| scrapeResult := Some r; scrapeError := None |})
  | (w1, Thrown e) => download_or_error url startTime e e w1
  end.

Definition failedRequestHandler (url : string) (startTime : Z) (message : string)
    (w : World) : World * Captured :=
  download_or_error url startTime message
    ("Failed to scrape " ++ url ++ ": " ++ message) w.

Definition wrap_error (message : string) : string :=
  "Failed to scrape page with TreeScraper: " ++ message.

(** [scrape(url, options)] from the cache [store] and the world [w]; the
    value carries the store after the call. *)
Definition scrape (url : string) (opts : ScrapeOptions)
    (store : gmap string (ScrapeResult * Z)) (w : World)
    : World * gmap string (ScrapeResult * Z) * outcome ScrapeResult :=
  let startTime := now page w in
  let time_out := or_number (timeout opts) 30000 in
  let use_cache := default true (cache opts) in
  let cache_expiry := or_number (cacheExpiry opts) 300000 in
  match (if use_cache then cache_get store (getCacheKey options url opts) else None) with
  | Some cached => (w, store, Returned cached)
  | None =>
      let rate := default 1000%Z (rateLimit options) in
      let w0 := if (0 <? rate)%Z then sleep page rate w else w in
      let '(w1, captured) :=
        match run_crawler url w0 with
        | CallsRequestHandler wp => requestHandler url startTime time_out wp
        | CallsFailedRequestHandler wp message =>
            failedRequestHandler url startTime message wp
        | CallsNothing wp => (wp, {| scrapeResult := None; scrapeError := None |})
        | RunThrows wp message =>
            (wp, {| scrapeResult := None; scrapeError := Some message |})
        end in
      match scrapeError captured, scrapeResult captured with
      | Some e, _ => (w1, store, Thrown (wrap_error e))
      | None, None =>
          (w1, store, Thrown (wrap_error "Tree scrape failed - no result captured"))
      | None, Some result =>
          if use_cache then
            let ttl := (cache_expiry / 1000)%Z in
            (w1, cache_set store (getCacheKey options url opts) result ttl, Returned result)
          else (w1, store, Returned result)
      end
  end.
End Scrape.

End TreeScraper.

(** ** Document links ([findDocumentLinks]) *)

Module DocumentLinks.

Definition default_extensions : list string :=
  [".pdf"; ".doc"; ".docx"; ".txt"; ".md"; ".rtf"].

(** [new Set(xs)] spread back into an array: the values in the order of their
    first occurrence. *)
Definition set_add (seen : list string) (x : string) : list string :=
  if existsb (String.eqb x) seen then seen else (seen ++ [x])%list.

Definition unique (xs : list string) : list string := foldl set_add [] xs.

(** The callback of [filter]: the lower-cased [href] ends with one of the
    extensions, which are compared as they are given. *)
Definition is_document (extensions : list string) (link : Link) : bool :=
  let lowered := Js.toLowerCase (href link) in
  existsb (fun ext => Js.endsWith lowered ext) extensions.

Section WithScraper.
(** [scraper.scrape(url)] of the basic scraper over the simple spider. *)
Variable scrape : string -> outcome ScrapeResult.

(** [extensions] is [options?.extensions]; an array, even an empty one, is
    truthy. *)
Definition findDocumentLinks (url : string) (extensions : option (list string))
    : outcome (list string) :=
  let extensions := default default_extensions extensions in
  bind (scrape url) (fun result =>
  let documentLinks :=
    map href (List.filter (is_document extensions) (r_links result)) in
  Returned (unique documentLinks)).
End WithScraper.

End DocumentLinks.

(** ** Download helpers ([shared/download-utils]) *)

Module DownloadUtils.
Import RegExp.

Definition MIME_TYPES : gmap string string :=
  list_to_map
    [ (".pdf", "application/pdf");
      (".doc", "application/msword");
      (".docx", "application/vnd.openxmlformats-officedocument.wordprocessingml.document");
      (".xls", "application/vnd.ms-excel");
      (".xlsx", "application/vnd.openxmlformats-officedocument.spreadsheetml.sheet");
      (".ppt", "application/vnd.ms-powerpoint");
      (".pptx", "application/vnd.openxmlformats-officedocument.presentationml.presentation");
      (".odt", "application/vnd.oasis.opendocument.text");
      (".ods", "application/vnd.oasis.opendocument.spreadsheet");
      (".odp", "application/vnd.oasis.opendocument.presentation");
      (".rtf", "application/rtf");
      (".txt", "text/plain");
      (".csv", "text/csv");
      (".zip", "application/zip");
      (".rar", "application/vnd.rar");
      (".7z", "application/x-7z-compressed");
      (".tar", "application/x-tar");
      (".gz", "application/gzip");
      (".jpg", "image/jpeg");
      (".jpeg", "image/jpeg");
      (".png", "image/png");
      (".gif", "image/gif");
      (".webp", "image/webp");
      (".svg", "image/svg+xml");
      (".mp3", "audio/mpeg");
      (".mp4", "video/mp4");
      (".wav", "audio/wav");
      (".avi", "video/x-msvideo");
      (".html", "text/html");
      (".htm", "text/html");
      (".xml", "application/xml");
      (".json", "application/json") ].

Definition is_dot (c : ascii) : bool := Ascii.eqb c ".".
Definition not_dot (c : ascii) : bool := negb (is_dot c).

(** The body of [/\.[^.]+$/]: a dot and one or more units that are no dot. *)
Definition extension_re : regex := Seq (Class is_dot) (Plus not_dot).

(** A match of [r$] that starts at the head of [s]: [r] has to consume the
    whole of [s], and the value is the matched text, [match[0]]. *)
Definition match_end_here (r : regex) (s : string) : option string :=
  rx (fun c => c) r s (fun rest =>
    match rest with
    | EmptyString => Some s
    | _ => None
    end).

(** [s.match(/r$/)?.[0]]: the leftmost match. *)
Fixpoint str_match_end (r : regex) (s : string) : option string :=
  match match_end_here r s with
  | Some m => Some m
  | None =>
      match s with
      | EmptyString => None
      | String _ s' => str_match_end r s'
      end
  end.

Definition octet_stream : string := "application/octet-stream".

(** [filename] is [None] when the argument is [undefined]. *)
Definition inferContentType (filename : option string) : string :=
  match filename with
  | None => octet_stream
  | Some name =>
      if negb (Js.truthy name) then octet_stream
      else
        match str_match_end extension_re (Js.toLowerCase name) with
        | None => octet_stream
        | Some ext =>
            match MIME_TYPES !! ext with
            | Some type => if Js.truthy type then type else octet_stream
            | None => octet_stream
            end
        end
  end.

Definition isPdfFile (filename : option string) : bool :=
  match filename with
  | Some name => Js.endsWith (Js.toLowerCase name) ".pdf"
  | None => false
  end.

(** A Playwright download: [url()], [suggestedFilename()] and the outcome of
    [path()]. *)
Record Download : Type := {
  dl_url : string;
  dl_suggestedFilename : string;
  dl_path : outcome (option string);
}.

Section WithFiles.
(** [readFile(path)] followed by [new Uint8Array(content)]. *)
Variable readFile : string -> outcome (list ascii).

Definition failed_download (download : Download) (message : string) : DownloadInfo :=
  {| d_url := dl_url download;
     d_filename := dl_suggestedFilename download;
     d_contentType := None;
     d_content := None;
     d_error := Some message |}.

Definition handlePlaywrightDownload (download : Download) : DownloadInfo :=
  let url := dl_url download in
  let filename := dl_suggestedFilename download in
  match dl_path download with
  | Thrown message => failed_download download message
  | Returned path =>
      match path with
      | Some file =>
          if Js.truthy file then
            match readFile file with
            | Thrown message => failed_download download message
            | Returned content =>
                {| d_url := url;
                   d_filename := filename;
                   d_contentType := Some (inferContentType (Some filename));
                   d_content := Some content;
                   d_error := None |}
            end
          else
            {| d_url := url;
               d_filename := filename;
               d_contentType := Some (inferContentType (Some filename));
               d_content := None;
               d_error := Some "Download path not available" |}
      | None =>
          {| d_url := url;
             d_filename := filename;
             d_contentType := Some (inferContentType (Some filename));
             d_content := None;
             d_error := Some "Download path not available" |}
      end
  end.
End WithFiles.

End DownloadUtils.

(** ** [DomAdapter.fetch] *)

Module DomFetch.

Inductive FetchError : Type :=
| ValidationError (message : string)
| NetworkError (message : string).

Inductive fetched (A : Type) : Type :=
| Fetched (a : A)
| Failed (e : FetchError).
Arguments Fetched {A} a.
Arguments Failed {A} e.

(** The configuration that [loadEnvConfig] returns. *)
Record FetchOptions : Type := {
  f_headers : option (gmap string string);
  f_timeout : option Z;
  f_cache : option bool;
  f_cacheExpiry : option Z;
  f_userAgent : option string;
}.

(** What the adapter reads of the response of [request]. *)
Record Response : Type := {
  statusCode : Z;
  status_header : option string;
  body_text : outcome string;
}.

Record Page : Type := {
  p_url : string;
  p_content : string;
  p_links : list Link;
  p_statusCode : Z;
  p_rawContent : string;
}.

Definition getCacheKey (url : string) : string :=
  "dom:" ++ TreeScraper.encodeURIComponent url.

Definition default_user_agent : string :=
  "Mozilla/5.0 (compatible; HappyVertical Spider/2.0; +https://happyvertical.com/bot)".

(** [{ ...defaults, ...headers }]: a header of the caller replaces the
    default of the same name. *)
Definition defaultHeaders (userAgent : option string) (headers : gmap string string)
    : gmap string string :=
  headers ∪
  list_to_map
    [ ("User-Agent",
       match userAgent with
       | Some ua => if Js.truthy ua then ua else default_user_agent
       | None => default_user_agent
       end);
      ("Accept", "text/html,application/xhtml+xml,application/xml;q=0.9,*/*;q=0.8");
      ("Accept-Language", "en-US,en;q=0.5");
      ("DNT", "1");
      ("Connection", "keep-alive");
      ("Upgrade-Insecure-Requests", "1") ].

Section WithPlatform.
(** [isUrl] and [loadEnvConfig] of the utilities package. *)
Variable isUrl : string -> bool.
Variable loadEnvConfig : FetchOptions -> FetchOptions.
(** [request(url, { method: 'GET', headers, headersTimeout, bodyTimeout })];
    [Thrown] is an error that is neither a [NetworkError] nor a
    [ValidationError]. *)
Variable request : string -> gmap string string -> Z -> outcome Response.
(** Setting [innerHTML] and reading [outerHTML] in a happy-dom window. *)
Variable happy_dom : string -> outcome string.
Variable select_anchors : string -> list CheerioAnchor.

Definition processHtml (html : string) : string :=
  match happy_dom html with
  | Returned normalized => normalized
  | Thrown _ => html
  end.

Definition wrap (message : string) : FetchError :=
  NetworkError ("Failed to fetch page: " ++ message).

(** [fetch(url, options)] from the cache [store]; the value carries the store
    after the call. *)
Definition fetch (url : string) (options : FetchOptions) (store : gmap string (Page * Z))
    : gmap string (Page * Z) * fetched Page :=
  let config := loadEnvConfig options in
  let headers := default ∅ (f_headers config) in
  let time_out := default 30000%Z (f_timeout config) in
  let use_cache := default true (f_cache config) in
  let cacheExpiry := default 300000%Z (f_cacheExpiry config) in
  if negb (Js.truthy url)
  then (store, Failed (ValidationError "URL is required and must be a string"))
  else if negb (isUrl url)
  then (store, Failed (ValidationError "Invalid URL format"))
  else
    match (if use_cache then fst <$> store !! getCacheKey url else None) with
    | Some cached => (store, Fetched cached)
    | None =>
        match request url (defaultHeaders (f_userAgent config) headers) time_out with
        | Thrown message => (store, Failed (wrap message))
        | Returned response =>
            if (400 <=? statusCode response)%Z then
              (store,
               Failed (NetworkError
                 ("HTTP " ++ TreeScraper.number_to_string (statusCode response) ++ ": " ++
                  match status_header response with
                  | Some text => if Js.truthy text then text else "Request failed"
                  | None => "Request failed"
                  end)))
            else
              match body_text response with
              | Thrown message => (store, Failed (wrap message))
              | Returned rawContent =>
                  let processedContent := processHtml rawContent in
                  let links := DomAdapter.extractLinks select_anchors processedContent in
                  let page :=
                    {| p_url := url;
                       p_content := processedContent;
                       p_links := links;
                       p_statusCode := statusCode response;
                       p_rawContent := rawContent |} in
                  if use_cache then
                    (<[ getCacheKey url := (page, (cacheExpiry / 1000)%Z) ]> store,
                     Fetched page)
                  else (store, Fetched page)
              end
        end
    end.
End WithPlatform.

End DomFetch.

(** ** [CrawleeAdapter.extractLinks]

    The callback that the adapter evaluates in the page: it runs to its end
    inside the browser, on the document as it is at each step. *)

Module CrawleeAdapter.

Record Document (World Element : Type) : Type := {
  (** [document.querySelectorAll(selector)] *)
  querySelectorAll : string -> World -> list Element;
  (** [(element as HTMLElement).click()]; the flag is [false] when it threw *)
  click_element : Element -> World -> World * bool;
  (** [link.textContent] *)
  textContent : Element -> World -> option string;
  (** [document.querySelectorAll('a[href]')] *)
  link_elements : World -> list DomAnchor;
}.
Arguments querySelectorAll {World Element} _ _ _.
Arguments click_element {World Element} _ _ _.
Arguments textContent {World Element} _ _ _.
Arguments link_elements {World Element} _ _.

Definition getCacheKey (url : string) : string :=
  "crawlee:" ++ TreeScraper.encodeURIComponent url.

Definition semanticSelectors : list string :=
  [ "button[aria-expanded=" ++ TreeScraper.dq ++ "false" ++ TreeScraper.dq ++ "]";
    "[role=" ++ TreeScraper.dq ++ "button" ++ TreeScraper.dq ++ "][aria-expanded=" ++
      TreeScraper.dq ++ "false" ++ TreeScraper.dq ++ "]";
    ".accordion-header";
    ".accordion-button";
    "summary";
    "[data-toggle]" ].

Definition hash_links : string :=
  "a[href=" ++ TreeScraper.dq ++ "#" ++ TreeScraper.dq ++ "]".

(** The inner [extractLinks]: an [href] that the map holds is left alone. *)
Definition extract_into (linkMap : JsMap.t Link) (anchors : list DomAnchor)
    : JsMap.t Link :=
  foldl (fun m a =>
           if JsMap.has m (el_href a) then m
           else JsMap.set m (el_href a) (TreeScraper.link_of_element a))
        linkMap anchors.

Section InPage.
Context {World Element : Type} `{EqDecision Element}.
Variable document : Document World Element.

(** The variables of the callback: the world, [clickedElements] and
    [clickedCount]. *)
Record Clicks : Type := {
  world : World;
  clickedElements : list Element;
  clickedCount : nat;
}.

(** [if (clickAndWait(el)) clickedCount++] *)
Definition click_and_count (st : Clicks) (element : Element) : Clicks :=
  if bool_decide (element ∈ clickedElements st) then st
  else
    match click_element document element (world st) with
    | (w, true) =>
        {| world := w;
           clickedElements := element :: clickedElements st;
           clickedCount := S (clickedCount st) |}
    | (w, false) =>
        {| world := w;
           clickedElements := clickedElements st;
           clickedCount := clickedCount st |}
    end.

(** The callback of [forEach] over the hash links. *)
Definition click_hash_link (st : Clicks) (link : Element) : Clicks :=
  let text := Js.trim (default EmptyString (textContent document link (world st))) in
  if Js.includes (Js.toLowerCase text) "skip" then st
  else if Js.includes (Js.toLowerCase text) "menu" then st
  else if (100 <? String.length text)%nat then st
  else click_and_count st link.

(** One selector: the node list is taken before its elements are clicked. *)
Definition click_selector (st : Clicks) (selector : string) : Clicks :=
  foldl click_and_count st (querySelectorAll document selector (world st)).

(** The clicks of one iteration, from [clickedCount = 0]. *)
Definition click_round (w : World) (clicked : list Element) : Clicks :=
  let st :=
    foldl click_selector
      {| world := w; clickedElements := clicked; clickedCount := 0 |}
      semanticSelectors in
  foldl click_hash_link st (querySelectorAll document hash_links (world st)).

(** The [for] loop with [remaining] iterations left. *)
Fixpoint rounds (remaining : nat) (w : World) (linkMap : JsMap.t Link)
    (clicked : list Element) : World * JsMap.t Link :=
  match remaining with
  | O => (w, linkMap)
  | S remaining' =>
      let st := click_round w clicked in
      let linkMap' := extract_into linkMap (link_elements document (world st)) in
      if (clickedCount st =? 0)%nat then (world st, linkMap')
      else rounds remaining' (world st) linkMap' (clickedElements st)
  end.

Definition extractLinks (w : World) : World * list Link :=
  let linkMap := extract_into JsMap.empty (link_elements document w) in
  let '(w', linkMap') := rounds 3 w linkMap [] in
  (w', JsMap.values linkMap').
End InPage.

End CrawleeAdapter.

(** ** The cache key of the crawl4ai adapter *)

Module Crawl4aiAdapter.

Definition getCacheKey (url : string) : string :=
  "crawl4ai:" ++ TreeScraper.encodeURIComponent url.

End Crawl4aiAdapter.

(** ** Sample sites

    Small concrete instances of the parameters, used to run the definitions
    above on explicit inputs. *)

Module Sample.
Import TreeScraper.

(** A parser of URLs of the shape [scheme://host/...]: the protocol is the
    text up to and including the first colon, and the host is the text
    between the two slashes that follow and the next slash. *)
Fixpoint until_char (stop : ascii) (s : string) : string * string :=
  match s with
  | EmptyString => (EmptyString, EmptyString)
  | String c s' =>
      if Ascii.eqb c stop then (EmptyString, s)
      else let '(a, b) := until_char stop s' in (String c a, b)
  end.

Definition new_URL (url : string) : option URL :=
  match until_char ":" url with
  | (scheme, String ":" (String "/" (String "/" rest))) =>
      if Js.truthy scheme then
        Some {| protocol := scheme ++ ":"; host := fst (until_char "/" rest) |}
      else None
  | _ => None
  end.

(** A scraper that answers every URL with the page [html] and, when [d] is
    given, with one captured download. *)
Definition scrape_page (html : string) (d : option DownloadInfo) (url : string)
    : outcome ScrapeResult :=
  Returned
    {| r_url := url;
       r_content := html;
       r_links := [];
       r_strategy :=
         {| s_type := basic; s_spider := dom; s_config := None; s_confidence := 1 |};
       r_metrics :=
         {| m_duration := 0; m_linkCount := 0; m_interactionCount := 0;
            m_complete := true |};
       r_raw :=
         {| raw_requestUrl := url;
            raw_loadedUrl := url;
            raw_interactionCount := None;
            raw_isDownload := false;
            raw_downloads := option_map (fun x => [x]) d |} |}.

Definition a_download : DownloadInfo :=
  {| d_url := "https://x/files/minutes.pdf";
     d_filename := "minutes.pdf";
     d_contentType := Some "application/pdf";
     d_content := Some [];
     d_error := None |}.

(** [<a href=Q/aQ>A</a><a href=Q/aQ>A2</a>], with [Q] the double quote. *)
Definition two_anchor_html : string :=
  "<a href=" ++ dq ++ "/a" ++ dq ++ ">A</a><a href=" ++ dq ++ "/a" ++ dq ++ ">A2</a>".

Definition anchor (h t : string) : CheerioAnchor :=
  {| attrs := {[ "href" := h ]}; inner_text := t |}.

(** What cheerio selects in [two_anchor_html]. *)
Definition select_anchors (html : string) : list CheerioAnchor :=
  if String.eqb html two_anchor_html then [anchor "/a" "A"; anchor "/a" "A2"] else [].

(** A page with a chain of [depth] nested nodes below the selector
    [li.collapsed > a], and one node for the selector [.my-node].  The world
    records the nodes that were opened (latest first), the captured
    downloads and the clock. *)
Record World : Type := {
  opened : list nat;
  captured : list DownloadInfo;
  clock : Z;
}.

Definition open_node (n : nat) (w : World) : World :=
  {| opened := n :: opened w; captured := captured w; clock := clock w |}.

Definition tick (ms : Z) (w : World) : World :=
  {| opened := opened w; captured := captured w; clock := (clock w + ms)%Z |}.

(** The custom node is number 100; the chain nodes are [0], [1], ... *)
Definition custom_node : nat := 100.

Definition chain_opened (w : World) : list nat :=
  List.filter (fun n => negb (n =? custom_node)%nat) (opened w).

Definition element_anchor (h t cls : string) : DomAnchor :=
  {| el_href := h; el_textContent := Some t; el_title := EmptyString;
     el_ariaLabel := None; el_rel := EmptyString; el_target := EmptyString;
     el_className := cls |}.

Definition node_name (n : nat) : string := NilEmpty.string_of_uint (Nat.to_uint n).

(** The index anchor changes its text and class once a node is open; every
    open node contributes the anchor of its document. *)
Definition anchors_of (w : World) : list DomAnchor :=
  element_anchor "https://x/index"
    (match opened w with [] => "closed" | _ => "open" end)
    (match opened w with [] => "collapsed" | _ => "expanded" end)
  :: map (fun n => element_anchor ("https://x/doc" ++ node_name n) "doc" EmptyString)
       (rev (opened w)).

Definition browser (depth : nat) : Browser World nat :=
  {| query_all := fun selector w =>
       (w, Returned
         (if String.eqb selector "li.collapsed > a" then
            if (length (chain_opened w) <? depth)%nat then [length (chain_opened w)] else []
          else if String.eqb selector ".my-node" then
            if existsb (Nat.eqb custom_node) (opened w) then [] else [custom_node]
          else []));
     get_path := fun n w => (w, Returned ("#node" ++ node_name n));
     is_visible := fun _ w => (w, Returned true);
     click := fun n w => (open_node n w, Returned tt);
     wait_for_timeout := fun ms w => (tick ms w, Returned tt);
     query_anchors := fun w => (w, Returned (anchors_of w));
     wait_for_load_state := fun _ w => (w, Returned tt);
     page_content := fun w => (w, Returned "<html></html>");
     page_url := fun _ => "https://x/index";
     downloads_of := captured;
     now := clock;
     sleep := tick |}.

Definition start : World := {| opened := []; captured := []; clock := 0 |}.

(** The world in which the download listener has captured a file. *)
Definition downloading : World :=
  {| opened := []; captured := [a_download]; clock := 0 |}.

Definition no_options : TreeScraperOptions :=
  {| maxIterations := None; clickDelay := None; rateLimit := None;
     customSelectors := None; handleExclusive := None; headless := None;
     userAgent := None |}.

Definition with_maxIterations (n : Z) : TreeScraperOptions :=
  {| maxIterations := Some n; clickDelay := None; rateLimit := None;
     customSelectors := None; handleExclusive := None; headless := None;
     userAgent := None |}.

Definition with_customSelectors (l : list string) : TreeScraperOptions :=
  {| maxIterations := None; clickDelay := None; rateLimit := None;
     customSelectors := Some l; handleExclusive := None; headless := None;
     userAgent := None |}.

Definition no_scrape_options : ScrapeOptions :=
  {| timeout := None; cache := None; cacheExpiry := None |}.

Definition with_cacheExpiry (ms : Z) : ScrapeOptions :=
  {| timeout := None; cache := None; cacheExpiry := Some ms |}.

(** A crawler whose page loads. *)
Definition loads (url : string) (w : World) : CrawlRun World := CallsRequestHandler w.

(** A crawler whose navigation is aborted by a download. *)
Definition aborts (url : string) (w : World) : CrawlRun World :=
  CallsFailedRequestHandler w "page.goto: net::ERR_ABORTED".

(** A link that has an [href] only. *)
Definition plain_link (h : string) : Link :=
  {| href := h; text := EmptyString; title := None; ariaLabel := None; rel := None;
     target := None; classes := None |}.

(** A basic scraper that answers every URL with a page of the given links. *)
Definition scrape_links (hrefs : list string) (url : string) : outcome ScrapeResult :=
  Returned
    {| r_url := url;
       r_content := EmptyString;
       r_links := map plain_link hrefs;
       r_strategy :=
         {| s_type := basic; s_spider := simple; s_config := None; s_confidence := 1 |};
       r_metrics :=
         {| m_duration := 0; m_linkCount := length hrefs; m_interactionCount := 0;
            m_complete := true |};
       r_raw :=
         {| raw_requestUrl := url;
            raw_loadedUrl := url;
            raw_interactionCount := None;
            raw_isDownload := false;
            raw_downloads := None |} |}.

(** The sample page as the document of [CrawleeAdapter.extractLinks]: the
    chain nodes answer to the selector [summary]. *)
Definition document (depth : nat) : CrawleeAdapter.Document World nat :=
  {| CrawleeAdapter.querySelectorAll := fun selector w =>
       if String.eqb selector "summary" then
         if (length (chain_opened w) <? depth)%nat then [length (chain_opened w)] else []
       else [];
     CrawleeAdapter.click_element := fun n w => (open_node n w, true);
     CrawleeAdapter.textContent := fun _ _ => Some "Details";
     CrawleeAdapter.link_elements := anchors_of |}.

(** The platform of [DomAdapter.fetch]: a server that answers [/missing] with
    the status 404 and every other URL with the two-anchor document. *)
Definition isUrl (url : string) : bool := Js.startsWith url "http".

Definition request (url : string) (headers : gmap string string) (time_out : Z)
    : outcome DomFetch.Response :=
  if Js.endsWith url "/missing" then
    Returned {| DomFetch.statusCode := 404; DomFetch.status_header := None;
                DomFetch.body_text := Returned "Not Found" |}
  else
    Returned {| DomFetch.statusCode := 200; DomFetch.status_header := None;
                DomFetch.body_text := Returned two_anchor_html |}.


Definition no_fetch_options : DomFetch.FetchOptions :=
  {| DomFetch.f_headers := None; DomFetch.f_timeout := None; DomFetch.f_cache := None;
     DomFetch.f_cacheExpiry := None; DomFetch.f_userAgent := None |}.

(** A download whose file is at [/tmp/minutes.pdf]. *)
Definition a_playwright_download : DownloadUtils.Download :=
  {| DownloadUtils.dl_url := "https://x/files/minutes.pdf";
     DownloadUtils.dl_suggestedFilename := "minutes.pdf";
     DownloadUtils.dl_path := Returned (Some "/tmp/minutes.pdf") |}.

End Sample.

(** ** Reference definitions

    Definitions that say in words of the specification what a function is
    expected to compute; the properties below compare the code with them. *)

Module Reference.

(** The anchors that are the first of their [href], in document order;
    [seen] holds the [href]s met so far. *)
Fixpoint first_per_href (seen : gset string) (anchors : list DomAnchor) : list DomAnchor :=
  match anchors with
  | [] => []
  | a :: rest =>
      if bool_decide (el_href a ∈ seen) then first_per_href seen rest
      else a :: first_per_href ({[ el_href a ]} ∪ seen) rest
  end.

(** The [href] attribute of an anchor when it is present and not empty. *)
Definition nonempty_href (a : CheerioAnchor) : option string :=
  match attrs a !! "href" with
  | Some h => if Js.truthy h then Some h else None
  | None => None
  end.

(** The last link of [links] whose [href] is [h]. *)
Definition last_with_href (h : string) (links : list Link) : option Link :=
  last (List.filter (fun l => String.eqb (href l) h) links).

(** The identities of the successful clicks of a click log. *)
Definition successes (log : list (string * bool)) : list string :=
  map fst (List.filter snd log).

(** The map entry that one anchor contributes. *)
Definition entry_of (a : DomAnchor) : string * Link := (el_href a, TreeScraper.link_of_element a).

(** No click is attempted on an identity that an earlier click reached. *)
Definition never_again (log : list (string * bool)) : Prop :=
  forall l1 id b l2,
    log = (l1 ++ (id, b) :: l2)%list -> id ∉ successes l1.

(** What the run keeps true of its counters and of its click log. *)
Record click_inv (st : TreeScraper.Expansion) : Prop := {
  inv_set : TreeScraper.clickedSelectors st = list_to_set (successes (TreeScraper.attempts st));
  inv_count : TreeScraper.interactionCount st = length (successes (TreeScraper.attempts st));
  inv_never_again : never_again (TreeScraper.attempts st);
}.




(** The two outcomes of a scrape that ran the crawler: a page that was loaded
    and expanded, with the two-valued confidence, or a download, with the
    confidence 0.8, no link and no interaction. *)
Definition page_outcome (r : ScrapeResult) : Prop :=
  raw_isDownload (r_raw r) = false /\
  s_confidence (r_strategy r)
  = (if (0 <? m_interactionCount (r_metrics r))%nat then 9 # 10 else 5 # 10).

Definition download_outcome (r : ScrapeResult) : Prop :=
  raw_isDownload (r_raw r) = true /\
  s_confidence (r_strategy r) = 8 # 10 /\
  r_links r = [] /\
  m_linkCount (r_metrics r) = 0 /\
  m_interactionCount (r_metrics r) = 0.

(** The value of a hexadecimal digit. *)
Definition hex_value (c : ascii) : nat :=
  let n := nat_of_ascii c in
  if (n <? 58)%nat then n - 48 else n - 55.

(** The inverse of [encodeURIComponent] on its image. *)
Fixpoint decodeURIComponent (s : string) : string :=
  match s with
  | EmptyString => EmptyString
  | String c rest =>
      if Ascii.eqb c "%" then
        match rest with
        | String h (String l rest') =>
            String (ascii_of_nat (16 * hex_value h + hex_value l)) (decodeURIComponent rest')
        | _ => s
        end
      else String c (decodeURIComponent rest)
  end.

(** [s] holds no colon. *)
Fixpoint no_colon (s : string) : bool :=
  match s with
  | EmptyString => true
  | String c rest => negb (Ascii.eqb c ":") && no_colon rest
  end.

(** Every unit of [s] is in the class [p]. *)
Fixpoint all_in (p : ascii -> bool) (s : string) : bool :=
  match s with
  | EmptyString => true
  | String c rest => p c && all_in p rest
  end.

(** [s] with every unit folded. *)
Fixpoint fold_string (fold : ascii -> ascii) (s : string) : string :=
  match s with
  | EmptyString => EmptyString
  | String c rest => String (fold c) (fold_string fold rest)
  end.

(** The language of a regular expression: [matches fold r s] when [r]
    matches the whole of [s], literals being compared through [fold]. *)
Inductive matches (fold : ascii -> ascii) : RegExp.regex -> string -> Prop :=
| matches_eps : matches fold RegExp.Eps EmptyString
| matches_class p c :
    p c = true -> matches fold (RegExp.Class p) (String c EmptyString)
| matches_lit l s :
    fold_string fold l = fold_string fold s -> matches fold (RegExp.Lit l) s
| matches_seq r1 r2 s1 s2 :
    matches fold r1 s1 -> matches fold r2 s2 -> matches fold (RegExp.Seq r1 r2) (s1 ++ s2)
| matches_alt_l r1 r2 s : matches fold r1 s -> matches fold (RegExp.Alt r1 r2) s
| matches_alt_r r1 r2 s : matches fold r2 s -> matches fold (RegExp.Alt r1 r2) s
| matches_star p s : all_in p s = true -> matches fold (RegExp.Star p) s
| matches_plus p c s :
    p c = true -> all_in p s = true -> matches fold (RegExp.Plus p) (String c s).

(** An occurrence of the pattern [p] in [s] whose group 1 is [g]. *)
Definition occurs (p : RegExp.pattern) (s g : string) : Prop :=
  exists before a b after,
    s = before ++ a ++ g ++ b ++ after /\
    matches (RegExp.fold_of p) (RegExp.pre p) a /\
    matches (RegExp.fold_of p) (RegExp.group p) g /\
    matches (RegExp.fold_of p) (RegExp.post p) b.


(** The unit [c] does not occur in [p]. *)
Fixpoint absent (c : ascii) (p : string) : bool :=
  match p with
  | EmptyString => true
  | String a rest => negb (Ascii.eqb a c) && absent c rest
  end.

(** Every entry of a link map is filed under the [href] of its record. *)
Definition keyed (m : JsMap.t Link) : Prop :=
  Forall (fun entry => href (snd entry) = fst entry) m.

(** A page as [DomAdapter.fetch] builds it: the content is the normalized
    raw content, the links are those of the content, and the status is below
    400. *)
Definition page_ok (happy_dom : string -> outcome string)
    (select_anchors : string -> list CheerioAnchor) (page : DomFetch.Page) : Prop :=
  DomFetch.p_content page = DomFetch.processHtml happy_dom (DomFetch.p_rawContent page) /\
  DomFetch.p_links page
  = DomAdapter.extractLinks select_anchors (DomFetch.p_content page) /\
  (DomFetch.p_statusCode page < 400)%Z.

(** A cache that holds such pages only, each under the key of its URL. *)
Definition store_ok (happy_dom : string -> outcome string)
    (select_anchors : string -> list CheerioAnchor)
    (store : gmap string (DomFetch.Page * Z)) : Prop :=
  map_Forall (fun key entry =>
                key = DomFetch.getCacheKey (DomFetch.p_url (fst entry)) /\
                page_ok happy_dom select_anchors (fst entry)) store.

End Reference.

(** * Properties *)

(** ** Facts about the string primitives *)

Lemma prefix_app (p s t : string) :
  String.prefix p s = true -> String.prefix p (s ++ t) = true.
Proof.
  revert s; induction p as [|a p IH]; intros s H.
  - destruct (s ++ t); reflexivity.
  - destruct s as [|c s]; simpl in *; [discriminate|].
    destruct (ascii_dec a c); [auto | discriminate].
Qed.

Lemma includes_app (s t p : string) :
  Js.includes s p = true -> Js.includes (s ++ t) p = true.
Proof.
  induction s as [|c s IH]; simpl; intros H.
  - rewrite orb_false_r in H. destruct p; [|discriminate].
    destruct t; reflexivity.
  - apply orb_true_iff in H as [H|H].
    + apply (prefix_app _ (String c s) t) in H. simpl in H. rewrite H. reflexivity.
    + rewrite (IH H). apply orb_true_r.
Qed.

Lemma normalizeUrl_cases (url : string) :
  Resolver.normalizeUrl url = url \/ Resolver.normalizeUrl url = url ++ "/".
Proof.
  unfold Resolver.normalizeUrl.
  destruct (_ && _ && _); [right | left]; reflexivity.
Qed.

Lemma normalizeUrl_includes (url p : string) :
  Js.includes url p = true -> Js.includes (Resolver.normalizeUrl url) p = true.
Proof.
  intros H. destruct (normalizeUrl_cases url) as [-> | ->]; [assumption|].
  now apply includes_app.
Qed.

Lemma ScraperType_name_not_wordpress (t : ScraperType) :
  ScraperType_name t <> "wordpress-pdf-link".
Proof. destruct t; discriminate. Qed.

(** ** The loop guard of the WordPress extractor *)

Section LoopGuard.
Variable new_URL : string -> option URL.
Variable scrape : string -> outcome ScrapeResult.

Lemma extractWordPress_marked (url html : string) :
  Js.includes url "wpdmdl=" = true ->
  Resolver.extractWordPressDownloadUrl new_URL url html = Returned None.
Proof.
  intros H. unfold Resolver.extractWordPressDownloadUrl. rewrite H. reflexivity.
Qed.

Lemma link_result_strategy (link type strategy : string) (isPdf : bool) :
  doc_strategy (Resolver.link_result link type strategy isPdf) = strategy.
Proof. reflexivity. Qed.

(** C1. A URL that contains [wpdmdl=] is never resolved again: for every
    HTML content the WordPress extractor returns [null], and whatever
    [scrapeDocument] returns for such a URL is not classified as
    [wordpress-pdf-link]. *)
Theorem loop_guard (url : string) :
  Js.includes url "wpdmdl=" = true ->
  (forall html,
     Resolver.extractWordPressDownloadUrl new_URL url html = Returned None) /\
  (forall html,
     Resolver.extractWordPressDownloadUrl new_URL (Resolver.normalizeUrl url) html
     = Returned None) /\
  (forall d,
     Resolver.scrapeDocument new_URL scrape url = Returned d ->
     doc_strategy d <> "wordpress-pdf-link").
Proof.
  intros H.
  assert (Hn : Js.includes (Resolver.normalizeUrl url) "wpdmdl=" = true)
    by now apply normalizeUrl_includes.
  split; [|split].
  - intros html. now apply extractWordPress_marked.
  - intros html. now apply extractWordPress_marked.
  - intros d. unfold Resolver.scrapeDocument.
    destruct (scrape (Resolver.normalizeUrl url)) as [result|e]; simpl; [|discriminate].
    rewrite (extractWordPress_marked _ (r_content result) Hn). simpl.
    destruct (raw_downloads (r_raw result)) as [[|dl ?]|].
    2: { intros [= <-]. discriminate. }
    all: destruct (Resolver.extractCivicWebDocumentUrl _ _ _) as [cw|]; simpl;
      [|discriminate];
      destruct (Resolver.truthy_url cw); [intros [= <-]; discriminate|];
      destruct (Resolver.extractDocuShareDocumentUrl _ _ _) as [ds|]; simpl;
      [|discriminate];
      destruct (Resolver.truthy_url ds); intros [= <-]; simpl;
      [discriminate | apply ScraperType_name_not_wordpress].
Qed.
End LoopGuard.

(** The guard at work: the WordPress page of the second fetch, whose URL
    carries the marker and whose content links to the marker again. *)
Lemma loop_guard_witness :
  let url := "https://x/download/f/?wpdmdl=17" in
  let html := "<a class='wpdm-download-link' href='https://x/download/f/?wpdmdl=17'>" in
  Resolver.extractWordPressDownloadUrl Sample.new_URL url html = Returned None /\
  exists d,
    Resolver.scrapeDocument Sample.new_URL (Sample.scrape_page html None) url = Returned d /\
    doc_strategy d <> "wordpress-pdf-link".
Proof.
  intros url html.
  destruct (loop_guard Sample.new_URL (Sample.scrape_page html None) url eq_refl)
    as (H1 & _ & H3).
  split; [apply H1|].
  eexists. split; [reflexivity|]. apply H3. reflexivity.
Defined.

(** ** Insertion-ordered maps *)

Section MapFacts.
Context {V : Type}.
Implicit Types (m : JsMap.t V) (k : string) (v : V).

Lemma get_set_eq m k v : JsMap.get (JsMap.set m k v) k = Some v.
Proof.
  induction m as [|[k' v'] m IH]; simpl.
  - now rewrite String.eqb_refl.
  - destruct (String.eqb_spec k' k) as [->|Hne]; simpl.
    + now rewrite String.eqb_refl.
    + destruct (String.eqb_spec k' k); [contradiction | exact IH].
Qed.

Lemma get_set_ne m k k' v : k <> k' -> JsMap.get (JsMap.set m k v) k' = JsMap.get m k'.
Proof.
  intros Hne. induction m as [|[k0 v0] m IH]; simpl.
  - destruct (String.eqb_spec k k'); [contradiction | reflexivity].
  - destruct (String.eqb_spec k0 k) as [->|Hk]; simpl.
    + destruct (String.eqb_spec k k'); [contradiction | reflexivity].
    + destruct (String.eqb_spec k0 k'); [reflexivity | exact IH].
Qed.

Lemma has_keys m k : JsMap.has m k = true <-> k ∈ JsMap.keys m.
Proof.
  unfold JsMap.has. induction m as [|[k' v'] m IH]; simpl.
  - split; [discriminate | intros H; inversion H].
  - destruct (String.eqb_spec k' k) as [->|Hne].
    + split; [intros _; left | reflexivity].
    + rewrite IH. split; [now right|].
      intros H. apply elem_of_cons in H as [->|H]; [contradiction | exact H].
Qed.

Lemma set_fresh m k v : JsMap.has m k = false -> JsMap.set m k v = (m ++ [(k, v)])%list.
Proof.
  unfold JsMap.has. induction m as [|[k' v'] m IH]; simpl; [reflexivity|].
  destruct (String.eqb_spec k' k); [discriminate|].
  intros H. now rewrite IH.
Qed.

Lemma set_present_keys m k v :
  JsMap.has m k = true -> JsMap.keys (JsMap.set m k v) = JsMap.keys m.
Proof.
  unfold JsMap.has. induction m as [|[k' v'] m IH]; simpl; [discriminate|].
  destruct (String.eqb_spec k' k); [reflexivity|].
  intros H. simpl. f_equal. now apply IH.
Qed.

(** [set] never moves an entry: the old keys stay where they were. *)
Lemma set_keys_prefix m k v : exists added, JsMap.keys (JsMap.set m k v) = (JsMap.keys m ++ added)%list.
Proof.
  destruct (JsMap.has m k) eqn:H.
  - exists []. rewrite app_nil_r. now apply set_present_keys.
  - exists [k]. rewrite (set_fresh _ _ _ H). unfold JsMap.keys. now rewrite map_app.
Qed.

Lemma set_keys_NoDup m k v : NoDup (JsMap.keys m) -> NoDup (JsMap.keys (JsMap.set m k v)).
Proof.
  intros Hnd. destruct (JsMap.has m k) eqn:H.
  - now rewrite set_present_keys.
  - rewrite (set_fresh _ _ _ H). unfold JsMap.keys. rewrite map_app. simpl.
    apply NoDup_app. split; [exact Hnd|]. split; [|apply NoDup_singleton].
    intros x Hx Hx'. apply list_elem_of_singleton in Hx' as ->.
    apply has_keys in Hx. congruence.
Qed.
End MapFacts.

(** ** One extraction pass *)

Import TreeScraper.

Lemma keys_snoc {V : Type} (m : JsMap.t V) (k : string) (v : V) :
  list_to_set (JsMap.keys (m ++ [(k, v)])%list) =@{gset string}
  {[ k ]} ∪ list_to_set (JsMap.keys m).
Proof.
  unfold JsMap.keys. rewrite map_app, list_to_set_app_L. simpl. set_solver.
Qed.

Lemma collect_fold (anchors : list DomAnchor) (m : JsMap.t Link) :
  foldl (fun linkMap a =>
           if JsMap.has linkMap (el_href a) then linkMap
           else JsMap.set linkMap (el_href a) (link_of_element a)) m anchors
  = (m ++ map Reference.entry_of
            (Reference.first_per_href (list_to_set (JsMap.keys m)) anchors))%list.
Proof.
  revert m. induction anchors as [|a rest IH]; intros m; simpl.
  - now rewrite app_nil_r.
  - destruct (JsMap.has m (el_href a)) eqn:Hhas.
    + rewrite IH. apply has_keys in Hhas.
      rewrite bool_decide_true by (now apply elem_of_list_to_set).
      reflexivity.
    + rewrite IH, (set_fresh _ _ _ Hhas), keys_snoc.
      rewrite bool_decide_false.
      * rewrite <- app_assoc. reflexivity.
      * intros Hin. apply elem_of_list_to_set, has_keys in Hin. congruence.
Qed.

Lemma collect_links_first (anchors : list DomAnchor) :
  collect_links anchors = map link_of_element (Reference.first_per_href ∅ anchors).
Proof.
  unfold collect_links. rewrite collect_fold. simpl.
  unfold JsMap.values. rewrite map_map. reflexivity.
Qed.

Lemma first_per_href_fresh (anchors : list DomAnchor) (seen : gset string) (a : DomAnchor) :
  a ∈ Reference.first_per_href seen anchors -> (el_href a ∉ seen) /\ (a ∈ anchors).
Proof.
  revert seen. induction anchors as [|b rest IH]; intros seen; simpl.
  - intros H. inversion H.
  - case_bool_decide as Hb.
    + intros H. destruct (IH _ H). split; [assumption | now right].
    + intros H. apply elem_of_cons in H as [->|H].
      * split; [assumption | left].
      * destruct (IH _ H) as [Hn Hin]. split; [set_solver | now right].
Qed.

Lemma first_per_href_NoDup (anchors : list DomAnchor) (seen : gset string) :
  NoDup (map el_href (Reference.first_per_href seen anchors)).
Proof.
  revert seen. induction anchors as [|b rest IH]; intros seen; simpl.
  - constructor.
  - case_bool_decide as Hb; [apply IH|].
    simpl. constructor; [|apply IH].
    intros Hin. apply list_elem_of_fmap in Hin as (a & Heq & Ha).
    apply first_per_href_fresh in Ha as [Hn _]. set_solver.
Qed.

Lemma first_per_href_covers (anchors : list DomAnchor) (seen : gset string) (a : DomAnchor) :
  a ∈ anchors -> el_href a ∉ seen ->
  el_href a ∈ map el_href (Reference.first_per_href seen anchors).
Proof.
  revert seen. induction anchors as [|b rest IH]; intros seen Hin Hn; simpl.
  - inversion Hin.
  - apply elem_of_cons in Hin as [<-|Hin].
    + rewrite bool_decide_false by assumption. simpl. left.
    + case_bool_decide as Hb; [now apply IH|].
      simpl. destruct (decide (el_href a = el_href b)) as [->|Hne]; [left|].
      right. apply IH; [assumption | set_solver].
Qed.

Lemma link_of_element_href (a : DomAnchor) : href (link_of_element a) = el_href a.
Proof. reflexivity. Qed.

(** C3, as the code has it.  One pass of [extractCurrentLinks] keeps, in
    document order, the record of the first anchor of every [href] and
    nothing else, so no two of its records share an [href]; the [href] is the
    resolved URL of the anchor.  [DomAdapter.extractLinks] does not collapse
    anything: it returns one record for every anchor with a non-empty [href],
    and two records, with texts [A] and [A2], for the two-anchor document. *)
Theorem one_pass_extraction :
  (forall anchors : list DomAnchor,
     collect_links anchors = map link_of_element (Reference.first_per_href ∅ anchors) /\
     NoDup (map href (collect_links anchors)) /\
     (forall a, a ∈ anchors -> el_href a ∈ map href (collect_links anchors))) /\
  (forall (select_anchors : string -> list CheerioAnchor) (html : string),
     map href (DomAdapter.extractLinks select_anchors html)
     = omap Reference.nonempty_href (select_anchors html)) /\
  map (fun l => (href l, text l))
    (DomAdapter.extractLinks Sample.select_anchors Sample.two_anchor_html)
  = [("/a", "A"); ("/a", "A2")].
Proof.
  split; [|split].
  - intros anchors. rewrite collect_links_first, map_map.
    rewrite (map_ext _ el_href link_of_element_href).
    split; [reflexivity|]. split; [apply first_per_href_NoDup|].
    intros a Ha. apply first_per_href_covers; [assumption | set_solver].
  - intros sel html. unfold DomAdapter.extractLinks.
    induction (sel html) as [|a l IH]; [reflexivity|].
    cbn [omap list_omap].
    unfold DomAdapter.link_of_anchor at 1, Reference.nonempty_href at 1.
    destruct (attrs a !! "href") as [h|]; [|exact IH].
    destruct (Js.truthy h); [|exact IH].
    cbn [map href]. f_equal. exact IH.
  - vm_compute. reflexivity.
Qed.

(** C3, as stated, fails for [DomAdapter.extractLinks]: the two-anchor
    document yields two records, not the single record of href [/a] and text
    [A]. *)
Lemma dom_extract_keeps_duplicates :
  length (DomAdapter.extractLinks Sample.select_anchors Sample.two_anchor_html) = 2 /\
  map (fun l => (href l, text l))
    (DomAdapter.extractLinks Sample.select_anchors Sample.two_anchor_html)
  <> [("/a", "A")].
Proof. split; [vm_compute; reflexivity | vm_compute; discriminate]. Qed.

(** ** Merging the passes of one run *)

Lemma merge_links_cons (m : JsMap.t Link) (l : Link) (links : list Link) :
  merge_links m (l :: links) = merge_links (JsMap.set m (href l) l) links.
Proof. reflexivity. Qed.

Lemma merge_get (links : list Link) (m : JsMap.t Link) (h : string) :
  JsMap.get (merge_links m links) h =
  match Reference.last_with_href h links with
  | Some l => Some l
  | None => JsMap.get m h
  end.
Proof.
  revert m. induction links as [|l links IH]; intros m; [reflexivity|].
  rewrite merge_links_cons, IH. unfold Reference.last_with_href. simpl.
  destruct (String.eqb_spec (href l) h) as [<-|Hne].
  - rewrite last_cons.
    destruct (last (List.filter _ links)); [reflexivity | apply get_set_eq].
  - destruct (last (List.filter _ links)); [reflexivity | now apply get_set_ne].
Qed.

Lemma merge_keys_prefix (links : list Link) (m : JsMap.t Link) :
  exists added, JsMap.keys (merge_links m links) = (JsMap.keys m ++ added)%list.
Proof.
  revert m. induction links as [|l links IH]; intros m.
  - exists []. now rewrite app_nil_r.
  - rewrite merge_links_cons. destruct (IH (JsMap.set m (href l) l)) as [a2 ->].
    destruct (set_keys_prefix m (href l) l) as [a1 ->].
    exists (a1 ++ a2)%list. now rewrite app_assoc.
Qed.

Lemma merge_keys_NoDup (links : list Link) (m : JsMap.t Link) :
  NoDup (JsMap.keys m) -> NoDup (JsMap.keys (merge_links m links)).
Proof.
  revert m. induction links as [|l links IH]; intros m H; [exact H|].
  rewrite merge_links_cons. now apply IH, set_keys_NoDup.
Qed.

(** C4, as the code has it.  Merging a pass into the accumulated map is
    last-wins on the metadata and first-wins on the position: after the merge
    an [href] holds the record of the last link of the pass that carries it,
    or its old record when the pass does not mention it; the entries that
    were present keep their places, new ones are added behind them, and no
    [href] occurs twice. *)
Theorem merge_is_last_wins (m : JsMap.t Link) (links : list Link) :
  (forall h,
     JsMap.get (merge_links m links) h =
     match Reference.last_with_href h links with
     | Some l => Some l
     | None => JsMap.get m h
     end) /\
  (exists added, JsMap.keys (merge_links m links) = (JsMap.keys m ++ added)%list) /\
  (NoDup (JsMap.keys m) -> NoDup (JsMap.keys (merge_links m links))).
Proof.
  split; [|split].
  - intros h. apply merge_get.
  - apply merge_keys_prefix.
  - apply merge_keys_NoDup.
Qed.

(** C4, as stated, fails: on the sample page the index anchor is in the map
    after the first pass with the text [closed]; the pass that follows the
    click on the first node replaces that record by the one with the text
    [open]. *)
Lemma later_pass_overwrites :
  exists w st first later,
    expand (Sample.browser 1) (constructor Sample.no_options) Sample.start
    = (w, Returned st) /\
    JsMap.get (linkMap (initial_state (collect_links (Sample.anchors_of Sample.start))))
      "https://x/index" = Some first /\
    JsMap.get (linkMap st) "https://x/index" = Some later /\
    text first = "closed" /\ text later = "open" /\ first <> later.
Proof.
  destruct (expand (Sample.browser 1) (constructor Sample.no_options) Sample.start)
    as [w [st|e]] eqn:E; [|vm_compute in E; discriminate].
  exists w, st. vm_compute in E. injection E as _ <-.
  do 2 eexists. split; [reflexivity|].
  split; [vm_compute; reflexivity|]. split; [vm_compute; reflexivity|].
  split; [reflexivity|]. split; [reflexivity | discriminate].
Qed.

(** ** The expansion loops *)

Lemma successes_snoc_true (log : list (string * bool)) (id : string) :
  Reference.successes (log ++ [(id, true)])%list = (Reference.successes log ++ [id])%list.
Proof.
  unfold Reference.successes. rewrite List.filter_app, map_app. reflexivity.
Qed.

Lemma successes_snoc_false (log : list (string * bool)) (id : string) :
  Reference.successes (log ++ [(id, false)])%list = Reference.successes log.
Proof.
  unfold Reference.successes. rewrite List.filter_app, map_app. simpl.
  now rewrite app_nil_r.
Qed.

Lemma never_again_nil : Reference.never_again [].
Proof. intros [|? ?] id b l2 H; discriminate. Qed.

Lemma never_again_snoc (log : list (string * bool)) (id : string) (b : bool) :
  Reference.never_again log -> id ∉ Reference.successes log -> Reference.never_again (log ++ [(id, b)])%list.
Proof.
  intros Hlog Hid l1 id' b' l2. destruct l2 as [|x l2 _] using rev_ind; intros E.
  - apply app_inj_tail in E as [-> [= -> ->]]. exact Hid.
  - change ((id', b') :: l2 ++ [x])%list with (((id', b') :: l2) ++ [x])%list in E.
    rewrite app_assoc in E. apply app_inj_tail in E as [E _].
    exact (Hlog _ _ _ _ E).
Qed.

Lemma never_again_NoDup (log : list (string * bool)) :
  Reference.never_again log -> NoDup (Reference.successes log).
Proof.
  induction log as [|[id b] log IH] using rev_ind; intros H; [constructor|].
  assert (Hlog : Reference.never_again log).
  { intros l1 id' b' l2 E. apply (H l1 id' b' (l2 ++ [(id, b)])%list).
    rewrite E, <- app_assoc. reflexivity. }
  destruct b.
  - rewrite successes_snoc_true. apply NoDup_app. split; [now apply IH|].
    split; [|apply NoDup_singleton].
    intros x Hx Hx'. apply list_elem_of_singleton in Hx' as ->.
    exact (H log id true [] eq_refl Hx).
  - rewrite successes_snoc_false. now apply IH.
Qed.

Lemma click_inv_failed (st : Expansion) (id : string) :
  Reference.click_inv st -> id ∉ clickedSelectors st -> Reference.click_inv (click_failed st id).
Proof.
  intros [Hs Hc Hn] Hid. split; simpl.
  - now rewrite successes_snoc_false.
  - now rewrite successes_snoc_false.
  - apply never_again_snoc; [exact Hn|]. rewrite Hs in Hid. set_solver.
Qed.

Lemma click_inv_done (st : Expansion) (id : string) :
  Reference.click_inv st -> id ∉ clickedSelectors st -> Reference.click_inv (click_done st id).
Proof.
  intros [Hs Hc Hn] Hid. split; simpl.
  - rewrite successes_snoc_true, list_to_set_app_L, Hs. set_solver.
  - rewrite successes_snoc_true, length_app, Hc. simpl. lia.
  - apply never_again_snoc; [exact Hn|]. rewrite Hs in Hid. set_solver.
Qed.

Section Loops.
Context {World Element : Type}.
Variable page : Browser World Element.
Variable options : TreeScraperOptions.

(** A property of the variables and of [clickedInIteration] that the three
    updates of the inner loop keep. *)
Variable P : Expansion -> nat -> Prop.
Hypothesis P_failed : forall st c id,
  P st c -> id ∉ clickedSelectors st -> P (click_failed st id) c.
Hypothesis P_done : forall st c id,
  P st c -> id ∉ clickedSelectors st -> P (click_done st id) (S c).
Hypothesis P_links : forall st c links, P st c -> P (with_links st links) c.

Lemma elements_loop_keeps (selector : string) (elements : list Element) :
  forall st c w w' st' c',
    P st c ->
    elements_loop page options selector elements st c w = (w', Returned (st', c')) ->
    P st' c'.
Proof.
  induction elements as [|element rest IH]; intros st c w w' st' c' HP E; simpl in E.
  - now injection E as _ <- <-.
  - destruct (get_path page element w) as [w1 [path|e]]; [|discriminate].
    case_bool_decide as Hin; [exact (IH _ _ _ _ _ _ HP E)|].
    destruct (is_visible page element w1) as [w2 [[|]|e]]; [| |discriminate].
    2: exact (IH _ _ _ _ _ _ HP E).
    destruct (click page element w2) as [w3 [[]|e]].
    2: exact (IH _ _ _ _ _ _ (P_failed _ _ _ HP Hin) E).
    pose proof (P_done _ _ _ HP Hin) as HP1.
    destruct (wait_for_timeout page _ w3) as [w4 [[]|e]].
    2: exact (IH _ _ _ _ _ _ HP1 E).
    destruct (query_anchors page w4) as [w5 [anchors|e]].
    2: exact (IH _ _ _ _ _ _ HP1 E).
    injection E as _ <- <-. now apply P_links.
Qed.

Lemma selectors_loop_keeps (selectors : list string) :
  forall st c w w' st' c',
    P st c ->
    selectors_loop page options selectors st c w = (w', Returned (st', c')) ->
    P st' c'.
Proof.
  induction selectors as [|selector rest IH]; intros st c w w' st' c' HP E; simpl in E.
  - now injection E as _ <- <-.
  - destruct (query_all page selector w) as [w1 [elements|e]]; [|discriminate].
    destruct (elements_loop page options selector elements st c w1)
      as [w2 [[st1 c1]|e]] eqn:E1; [|discriminate].
    pose proof (elements_loop_keeps _ _ _ _ _ _ _ _ HP E1) as HP1.
    destruct (0 <? c1)%nat.
    + now injection E as _ <- <-.
    + exact (IH _ _ _ _ _ _ HP1 E).
Qed.
End Loops.

(** *** The outer loop *)








Section OuterLoop.
Context {World Element : Type}.
Variable page : Browser World Element.
Variable options : TreeScraperOptions.



Lemma inner_keeps_click_inv (selectors : list string) st c w w' st' c' :
  Reference.click_inv st ->
  selectors_loop page options selectors st c w = (w', Returned (st', c')) ->
  Reference.click_inv st'.
Proof.
  apply (selectors_loop_keeps page options (fun s _ => Reference.click_inv s)).
  - intros s _ id. apply click_inv_failed.
  - intros s _ id. apply click_inv_done.
  - intros s _ links [H1 H2 H3]. split; assumption.
Qed.

Lemma iterate_O st e w : iterate page options 0 st e w = (w, Returned st).
Proof. reflexivity. Qed.

Lemma iterate_S (n : nat) st e w :
  iterate page options (S n) st e w =
  match selectors_loop page options (all_selectors options) st 0 w with
  | (w1, Thrown err) => (w1, Thrown err)
  | (w1, Returned (st1, c)) =>
      if (c =? 0)%nat then
        if (maxConsecutiveEmpty <=? S e)%nat then (w1, Returned (end_iteration st1 c))
        else iterate page options n (end_iteration st1 c) (S e) w1
      else iterate page options n (end_iteration st1 c) 0 w1
  end.
Proof. reflexivity. Qed.

Lemma iterate_click_inv (remaining : nat) :
  forall st e w w' st',
    Reference.click_inv st ->
    iterate page options remaining st e w = (w', Returned st') ->
    Reference.click_inv st'.
Proof.
  induction remaining as [|n IH]; intros st e w w' st' Hinv E.
  - rewrite iterate_O in E. now injection E as _ <-.
  - rewrite iterate_S in E.
    destruct (selectors_loop page options _ st 0 w) as [w1 [[st1 c]|err]] eqn:E1;
      [|discriminate].
    assert (H2 : Reference.click_inv (end_iteration st1 c)).
    { destruct (inner_keeps_click_inv _ _ _ _ _ _ _ Hinv E1) as [H1 H2 H3].
      split; assumption. }
    destruct (c =? 0)%nat.
    + destruct (maxConsecutiveEmpty <=? S e)%nat.
      * now injection E as _ <-.
      * exact (IH _ _ _ _ _ H2 E).
    + exact (IH _ _ _ _ _ H2 E).
Qed.


Lemma initial_click_inv (links : list Link) : Reference.click_inv (initial_state links).
Proof. split; [reflexivity | reflexivity | apply never_again_nil]. Qed.


(** C5. After a run, the click log holds no identity twice among its
    successful clicks, [clickedSelectors] is the set of those identities, no
    click was ever attempted on an identity that an earlier click had put in
    the set, and [interactionCount] is the number of distinct identities
    clicked. *)
Theorem no_double_click (w w' : World) (st : Expansion) :
  expand page options w = (w', Returned st) ->
  NoDup (Reference.successes (attempts st)) /\
  clickedSelectors st = list_to_set (Reference.successes (attempts st)) /\
  Reference.never_again (attempts st) /\
  interactionCount st = size (clickedSelectors st).
Proof.
  unfold expand. intros E.
  destruct (query_anchors page w) as [w1 [anchors|e]]; [|discriminate].
  destruct (iterate_click_inv _ _ _ _ _ _ (initial_click_inv _) E) as [Hs Hc Hn].
  pose proof (never_again_NoDup _ Hn) as Hnd.
  split; [exact Hnd|]. split; [exact Hs|]. split; [exact Hn|].
  rewrite Hs, Hc. symmetry. now apply size_list_to_set.
Qed.

End OuterLoop.

(** The three-level sample page: three clicks, three identities. *)
Lemma no_double_click_witness :
  exists w st,
    expand (Sample.browser 3) (constructor Sample.no_options) Sample.start
    = (w, Returned st) /\
    interactionCount st = 3 /\
    NoDup (Reference.successes (attempts st)) /\
    interactionCount st = size (clickedSelectors st).
Proof.
  destruct (expand (Sample.browser 3) (constructor Sample.no_options) Sample.start)
    as [w [st|e]] eqn:E; [|vm_compute in E; discriminate].
  exists w, st. split; [reflexivity|].
  destruct (no_double_click _ _ _ _ _ E) as (Hnd & _ & _ & Hsize).
  split; [|split; assumption].
  vm_compute in E. injection E as _ <-. reflexivity.
Defined.



(** ** [scrape]: confidence and the cache *)

Section ScrapeFacts.
Context {World Element : Type}.
Variable page : Browser World Element.
Variable run_crawler : string -> World -> CrawlRun World.
Variable options : TreeScraperOptions.

Lemma page_result_outcome url w content links n duration :
  Reference.page_outcome (page_result page options url w content links n duration).
Proof. split; reflexivity. Qed.

Lemma download_result_outcome url ds duration :
  Reference.download_outcome (download_result url ds duration).
Proof. repeat split. Qed.

Lemma load_and_expand_outcome url startTime time_out w w' r :
  load_and_expand page options url startTime time_out w = (w', Returned r) ->
  Reference.page_outcome r.
Proof.
  unfold load_and_expand. intros E.
  destruct (wait_for_load_state page time_out w) as [w1 [[]|e]]; [|discriminate].
  destruct (wait_for_timeout page 1000 w1) as [w2 [[]|e]]; [|discriminate].
  destruct (extractLinksWithTreeExpansion page options w2) as [w3 [[links n]|e]];
    [|discriminate].
  destruct (page_content page w3) as [w4 [content|e]]; [|discriminate].
  injection E as _ <-. apply page_result_outcome.
Qed.

Lemma download_or_error_outcome url startTime message error w w' captured r :
  download_or_error page url startTime message error w = (w', captured) ->
  scrapeResult captured = Some r ->
  scrapeError captured = None /\ Reference.download_outcome r.
Proof.
  unfold download_or_error. intros E Hr.
  destruct (isDownloadError message).
  - destruct (downloads_of page (sleep page 2000 w)) as [|d ds];
      injection E as _ <-; simpl in Hr; [discriminate|].
    injection Hr as <-. split; [reflexivity | apply download_result_outcome].
  - injection E as _ <-. discriminate.
Qed.

(** What the handlers leave in [scrapeResult]. *)
Lemma captured_outcome url startTime time_out w0 w1 captured r :
  match run_crawler url w0 with
  | CallsRequestHandler wp => requestHandler page options url startTime time_out wp
  | CallsFailedRequestHandler wp message =>
      failedRequestHandler page url startTime message wp
  | CallsNothing wp => (wp, {| scrapeResult := None; scrapeError := None |})
  | RunThrows wp message =>
      (wp, {| scrapeResult := None; scrapeError := Some message |})
  end = (w1, captured) ->
  scrapeError captured = None ->
  scrapeResult captured = Some r ->
  Reference.page_outcome r \/ Reference.download_outcome r.
Proof.
  intros E He Hr.
  destruct (run_crawler url w0) as [wp|wp message|wp|wp message].
  - unfold requestHandler in E.
    destruct (load_and_expand page options url startTime time_out wp)
      as [w2 [r'|e]] eqn:El.
    + injection E as _ <-. injection Hr as <-. left.
      exact (load_and_expand_outcome _ _ _ _ _ _ El).
    + right. exact (proj2 (download_or_error_outcome _ _ _ _ _ _ _ _ E Hr)).
  - right. exact (proj2 (download_or_error_outcome _ _ _ _ _ _ _ _ E Hr)).
  - injection E as _ <-. discriminate.
  - injection E as _ <-. discriminate.
Qed.

(** The shape of [scrape] on a cache miss (or with the cache switched off):
    the crawler runs from the world [w0] and the handlers fill [captured]. *)
Lemma scrape_miss url opts store w :
  (if default true (cache opts) then cache_get store (getCacheKey options url opts) else None)
  = None ->
  exists w1 captured,
    match run_crawler url
            (if (0 <? default 1000 (rateLimit options))%Z
             then sleep page (default 1000%Z (rateLimit options)) w else w) with
    | CallsRequestHandler wp =>
        requestHandler page options url (now page w) (or_number (timeout opts) 30000) wp
    | CallsFailedRequestHandler wp message =>
        failedRequestHandler page url (now page w) message wp
    | CallsNothing wp => (wp, {| scrapeResult := None; scrapeError := None |})
    | RunThrows wp message =>
        (wp, {| scrapeResult := None; scrapeError := Some message |})
    end = (w1, captured) /\
    scrape page run_crawler options url opts store w =
    match scrapeError captured, scrapeResult captured with
    | Some e, _ => (w1, store, Thrown (wrap_error e))
    | None, None =>
        (w1, store, Thrown (wrap_error "Tree scrape failed - no result captured"))
    | None, Some result =>
        if default true (cache opts) then
          (w1, cache_set store (getCacheKey options url opts) result
                 (or_number (cacheExpiry opts) 300000 / 1000)%Z,
           Returned result)
        else (w1, store, Returned result)
    end.
Proof.
  intros Hmiss. unfold scrape. rewrite Hmiss.
  destruct (match run_crawler url _ with
            | CallsRequestHandler wp => _
            | CallsFailedRequestHandler wp message => _
            | CallsNothing wp => _
            | RunThrows wp message => _
            end) as [w1 captured] eqn:E.
  exists w1, captured. split; reflexivity.
Qed.

(** C6, as the code has it.  A result that [scrape] obtains from the crawler
    (the cache is off or holds nothing for the key) is either the result of a
    loaded page, whose confidence is 0.9 when [interactionCount > 0] and 0.5
    otherwise, or the result of a download, which has no link, no
    interaction and the confidence 0.8. *)
Theorem confidence_of_result url opts store w w' store' r :
  cache opts = Some false \/ cache_get store (getCacheKey options url opts) = None ->
  scrape page run_crawler options url opts store w = (w', store', Returned r) ->
  Reference.page_outcome r \/ Reference.download_outcome r.
Proof.
  intros Hmiss E.
  assert (Hm : (if default true (cache opts)
                then cache_get store (getCacheKey options url opts) else None) = None).
  { destruct Hmiss as [-> | ->]; [reflexivity | now destruct (default true (cache opts))]. }
  destruct (scrape_miss url opts store w Hm) as (w1 & captured & Ec & Es).
  rewrite Es in E.
  destruct (scrapeError captured) eqn:He; [discriminate|].
  destruct (scrapeResult captured) as [result|] eqn:Hr; [|discriminate].
  assert (result = r) as ->.
  { destruct (default true (cache opts)); now injection E. }
  exact (captured_outcome _ _ _ _ _ _ _ Ec He Hr).
Qed.

(** C7, as the code has it.  [scrape] writes to the cache only when it
    returns a result that came from the crawler while the cache is on
    ([cache] is not [false]); the entry is written under the cache key with a
    time-to-live of [floor((cacheExpiry || 300000) / 1000)] seconds, so an
    absent or zero [cacheExpiry] gives 300 seconds.  A result served from the
    cache, a failure, or [cache: false] leave the store as it was. *)
Theorem cache_write url opts store w w' store' out :
  scrape page run_crawler options url opts store w = (w', store', out) ->
  match out with
  | Thrown _ => store' = store
  | Returned r =>
      if default true (cache opts) then
        match cache_get store (getCacheKey options url opts) with
        | Some cached => r = cached /\ store' = store
        | None =>
            store' = <[ getCacheKey options url opts :=
                          (r, (or_number (cacheExpiry opts) 300000 / 1000)%Z) ]> store
        end
      else store' = store
  end.
Proof.
  intros E.
  destruct (if default true (cache opts)
            then cache_get store (getCacheKey options url opts) else None) as [cached|] eqn:Hc.
  - unfold scrape in E. rewrite Hc in E. injection E as _ <- <-.
    destruct (default true (cache opts)); [|discriminate].
    rewrite Hc. split; reflexivity.
  - destruct (scrape_miss url opts store w Hc) as (w1 & captured & _ & Es).
    rewrite Es in E.
    destruct (scrapeError captured); [now injection E as _ <- <-|].
    destruct (scrapeResult captured) as [result|]; [|now injection E as _ <- <-].
    destruct (default true (cache opts)).
    + rewrite Hc. now injection E as _ <- <-.
    + now injection E as _ <- <-.
Qed.
End ScrapeFacts.

(** The three-level sample page through [scrape]: three interactions and the
    confidence 0.9. *)
Lemma confidence_of_result_witness :
  exists w store r,
    scrape (Sample.browser 3) Sample.loads (constructor Sample.no_options)
      "https://x/index" Sample.no_scrape_options ∅ Sample.start
    = (w, store, Returned r) /\
    m_interactionCount (r_metrics r) = 3 /\
    s_confidence (r_strategy r) = 9 # 10 /\
    (Reference.page_outcome r \/ Reference.download_outcome r).
Proof.
  destruct (scrape (Sample.browser 3) Sample.loads (constructor Sample.no_options)
              "https://x/index" Sample.no_scrape_options ∅ Sample.start)
    as [[w store] [r|e]] eqn:E; [|vm_compute in E; discriminate].
  exists w, store, r. split; [reflexivity|].
  assert (H : Reference.page_outcome r \/ Reference.download_outcome r).
  { apply (confidence_of_result _ _ _ _ _ _ _ _ _ r) in E; [exact E|].
    right. unfold cache_get. now rewrite lookup_empty. }
  split; [|split; [|exact H]]; vm_compute in E; injection E as _ _ <-; reflexivity.
Defined.

(** C6, as stated, fails for the download outcome: the navigation of the
    sample crawler is aborted by a download, and the result, with no link and
    no interaction, carries the confidence 0.8 and not 0.5. *)
Lemma download_confidence_is_not_half :
  exists w store r,
    scrape (Sample.browser 3) Sample.aborts (constructor Sample.no_options)
      "https://x/minutes" Sample.no_scrape_options ∅ Sample.downloading
    = (w, store, Returned r) /\
    r_links r = [] /\
    m_interactionCount (r_metrics r) = 0 /\
    s_confidence (r_strategy r) = 8 # 10 /\
    ~ (s_confidence (r_strategy r) == 5 # 10)%Q.
Proof.
  destruct (scrape (Sample.browser 3) Sample.aborts (constructor Sample.no_options)
              "https://x/minutes" Sample.no_scrape_options ∅ Sample.downloading)
    as [[w store] [r|e]] eqn:E; [|vm_compute in E; discriminate].
  exists w, store, r. split; [reflexivity|].
  vm_compute in E. injection E as _ _ <-.
  split; [reflexivity|]. split; [reflexivity|]. split; [reflexivity|].
  simpl. intros H. vm_compute in H. discriminate.
Qed.

(** A scrape with a cache expiry of ninety seconds and a half. *)
Lemma cache_write_witness :
  exists w store r,
    scrape (Sample.browser 3) Sample.loads (constructor Sample.no_options)
      "https://x/index" (Sample.with_cacheExpiry 90500) ∅ Sample.start
    = (w, store, Returned r) /\
    store = {[ "tree:https%3A%2F%2Fx%2Findex:10:100" := (r, 90%Z) ]}.
Proof.
  destruct (scrape (Sample.browser 3) Sample.loads (constructor Sample.no_options)
              "https://x/index" (Sample.with_cacheExpiry 90500) ∅ Sample.start)
    as [[w store] [r|e]] eqn:E; [|vm_compute in E; discriminate].
  exists w, store, r. split; [reflexivity|].
  apply cache_write in E. simpl in E. rewrite E. reflexivity.
Defined.

(** C7, as stated, fails: with a [cacheExpiry] of zero the cache is written
    all the same, with a time-to-live of 300 seconds. *)
Lemma zero_cacheExpiry_still_writes :
  exists w store r,
    scrape (Sample.browser 3) Sample.loads (constructor Sample.no_options)
      "https://x/index" (Sample.with_cacheExpiry 0) ∅ Sample.start
    = (w, store, Returned r) /\
    cacheExpiry (Sample.with_cacheExpiry 0) = Some 0%Z /\
    store !! "tree:https%3A%2F%2Fx%2Findex:10:100" = Some (r, 300%Z) /\
    store <> ∅.
Proof.
  destruct (scrape (Sample.browser 3) Sample.loads (constructor Sample.no_options)
              "https://x/index" (Sample.with_cacheExpiry 0) ∅ Sample.start)
    as [[w store] [r|e]] eqn:E; [|vm_compute in E; discriminate].
  exists w, store, r. split; [reflexivity|]. split; [reflexivity|].
  assert (H : store !! "tree:https%3A%2F%2Fx%2Findex:10:100" = Some (r, 300%Z)).
  { vm_compute in E. injection E as _ <- <-. vm_compute. reflexivity. }
  split; [exact H|]. intros ->. rewrite lookup_empty in H. discriminate.
Qed.

(** ** Cache keys *)

Lemma no_colon_app (s t : string) :
  Reference.no_colon (s ++ t) = Reference.no_colon s && Reference.no_colon t.
Proof.
  induction s as [|c s IH]; simpl; [reflexivity|].
  rewrite IH. now rewrite andb_assoc.
Qed.

(** Two texts without a colon, each followed by a colon and a rest, agree
    only when the texts and the rests do. *)
Lemma colon_split (s1 s2 t1 t2 : string) :
  Reference.no_colon s1 = true -> Reference.no_colon s2 = true ->
  s1 ++ ":" ++ t1 = s2 ++ ":" ++ t2 -> s1 = s2 /\ t1 = t2.
Proof.
  revert s2. induction s1 as [|c s1 IH]; intros [|d s2] H1 H2 E; simpl in *.
  - now injection E.
  - injection E as <- _. discriminate.
  - injection E as -> _. discriminate.
  - injection E as -> E.
    apply andb_true_iff in H1 as [_ H1]. apply andb_true_iff in H2 as [_ H2].
    destruct (IH _ H1 H2 E) as [-> ->]. split; reflexivity.
Qed.

Lemma encode_char_cases (c : ascii) :
  if is_unreserved c then
    Ascii.eqb c ":" = false /\ Ascii.eqb c "%" = false
  else
    Ascii.eqb (hex_digit (nat_of_ascii c / 16)) ":" = false /\
    Ascii.eqb (hex_digit (nat_of_ascii c mod 16)) ":" = false /\
    ascii_of_nat
      (16 * Reference.hex_value (hex_digit (nat_of_ascii c / 16)) +
       Reference.hex_value (hex_digit (nat_of_ascii c mod 16))) = c.
Proof.
  destruct c as [[] [] [] [] [] [] [] []]; vm_compute; repeat split.
Qed.

Lemma encode_cons (c : ascii) (s : string) :
  encodeURIComponent (String c s) =
  if is_unreserved c then String c (encodeURIComponent s)
  else String "%" (String (hex_digit (nat_of_ascii c / 16))
         (String (hex_digit (nat_of_ascii c mod 16)) (encodeURIComponent s))).
Proof. reflexivity. Qed.

Lemma no_colon_cons (c : ascii) (s : string) :
  Reference.no_colon (String c s) = negb (Ascii.eqb c ":") && Reference.no_colon s.
Proof. reflexivity. Qed.

Lemma decode_percent (h l : ascii) (s : string) :
  Reference.decodeURIComponent (String "%" (String h (String l s))) =
  String (ascii_of_nat (16 * Reference.hex_value h + Reference.hex_value l))
    (Reference.decodeURIComponent s).
Proof. reflexivity. Qed.

Lemma decode_plain (c : ascii) (s : string) :
  Ascii.eqb c "%" = false ->
  Reference.decodeURIComponent (String c s) = String c (Reference.decodeURIComponent s).
Proof. intros H. cbn [Reference.decodeURIComponent]. now rewrite H. Qed.

Lemma encode_no_colon (s : string) : Reference.no_colon (encodeURIComponent s) = true.
Proof.
  induction s as [|c s IH]; [reflexivity|]. rewrite encode_cons.
  pose proof (encode_char_cases c) as H.
  destruct (is_unreserved c); rewrite !no_colon_cons.
  - destruct H as [-> _]. exact IH.
  - destruct H as (-> & -> & _). exact IH.
Qed.

Lemma decode_encode (s : string) :
  Reference.decodeURIComponent (encodeURIComponent s) = s.
Proof.
  induction s as [|c s IH]; [reflexivity|]. rewrite encode_cons.
  pose proof (encode_char_cases c) as H.
  destruct (is_unreserved c).
  - destruct H as [_ H]. rewrite (decode_plain _ _ H). now rewrite IH.
  - destruct H as (_ & _ & H). rewrite decode_percent, H. now rewrite IH.
Qed.

Lemma encode_inj (s1 s2 : string) :
  encodeURIComponent s1 = encodeURIComponent s2 -> s1 = s2.
Proof.
  intros E. rewrite <- (decode_encode s1), <- (decode_encode s2). now rewrite E.
Qed.

Lemma uint_no_colon (d : Decimal.uint) :
  Reference.no_colon (NilEmpty.string_of_uint d) = true.
Proof. induction d; simpl; auto. Qed.

Lemma number_no_colon (n : Z) : Reference.no_colon (number_to_string n) = true.
Proof.
  unfold number_to_string. destruct (Z.to_int n); simpl; apply uint_no_colon.
Qed.

Lemma number_to_string_inj (n m : Z) : number_to_string n = number_to_string m -> n = m.
Proof.
  unfold number_to_string. intros E. apply DecimalZ.to_int_inj.
  assert (H : Some (Z.to_int n) = Some (Z.to_int m))
    by (rewrite <- !NilEmpty.isi; now rewrite E).
  now injection H.
Qed.

(** C8, as the code has it.  The cache key is a function of the URL and of
    the two numbers [maxIterations || 10] and [clickDelay || 100] of the
    scraper, and of nothing else: two keys are equal exactly when the URLs
    and these two numbers are.  The scrapers built with [maxIterations: 3]
    and with [maxIterations: 5] therefore never share a key; [customSelectors]
    and the options of the call ([_options] is not read) are no part of the
    key. *)
Theorem cache_key_sensitivity :
  (forall (o1 o2 : TreeScraperOptions) (url1 url2 : string) (opts1 opts2 : ScrapeOptions),
     getCacheKey o1 url1 opts1 = getCacheKey o2 url2 opts2 <->
     url1 = url2 /\
     or_number (maxIterations o1) 10 = or_number (maxIterations o2) 10 /\
     or_number (clickDelay o1) 100 = or_number (clickDelay o2) 100) /\
  (forall (url1 url2 : string) (opts1 opts2 : ScrapeOptions),
     getCacheKey (constructor (Sample.with_maxIterations 3)) url1 opts1 <>
     getCacheKey (constructor (Sample.with_maxIterations 5)) url2 opts2).
Proof.
  assert (Hiff : forall (o1 o2 : TreeScraperOptions) (url1 url2 : string)
                   (opts1 opts2 : ScrapeOptions),
     getCacheKey o1 url1 opts1 = getCacheKey o2 url2 opts2 <->
     url1 = url2 /\
     or_number (maxIterations o1) 10 = or_number (maxIterations o2) 10 /\
     or_number (clickDelay o1) 100 = or_number (clickDelay o2) 100).
  { intros o1 o2 url1 url2 opts1 opts2. unfold getCacheKey. split.
    - intros E. injection E as E.
      apply colon_split in E as [Eu E]; try apply encode_no_colon.
      apply colon_split in E as [Em Ed]; try apply number_no_colon.
      split; [now apply encode_inj|].
      split; now apply number_to_string_inj.
    - intros (-> & -> & ->). reflexivity. }
  split; [exact Hiff|].
  intros url1 url2 opts1 opts2 E. apply Hiff in E as (_ & E & _). discriminate.
Qed.

(** C8, as stated, fails for [customSelectors]: a scraper with the custom
    selector [.my-node] and one without it build the same key for a URL, and
    expand the sample page to different results. *)
Lemma customSelectors_share_a_key :
  customSelectors (constructor (Sample.with_customSelectors [".my-node"]))
  <> customSelectors (constructor Sample.no_options) /\
  getCacheKey (constructor (Sample.with_customSelectors [".my-node"])) "https://x/index"
    Sample.no_scrape_options
  = getCacheKey (constructor Sample.no_options) "https://x/index"
      Sample.no_scrape_options /\
  (extractLinksWithTreeExpansion (Sample.browser 2)
     (constructor (Sample.with_customSelectors [".my-node"])) Sample.start).2
  <> (extractLinksWithTreeExpansion (Sample.browser 2)
        (constructor Sample.no_options) Sample.start).2.
Proof.
  split; [discriminate|]. split; [reflexivity|].
  vm_compute. discriminate.
Qed.

(** ** The matcher finds occurrences only *)

Lemma append_assoc (a b c : string) : (a ++ b) ++ c = a ++ (b ++ c).
Proof.
  induction a as [|x a IH]; [reflexivity|].
  change (String x ((a ++ b) ++ c) = String x (a ++ (b ++ c))). now f_equal.
Qed.

Section MatcherFacts.
Context {R : Type}.
Variable fold : ascii -> ascii.

Lemma lit_sound (l : string) :
  forall (s : string) (k : string -> option R) (v : R),
    RegExp.lit fold l s k = Some v ->
    exists s1 s2,
      s = s1 ++ s2 /\
      Reference.fold_string fold l = Reference.fold_string fold s1 /\
      k s2 = Some v.
Proof.
  induction l as [|a l IH]; intros s k v H; simpl in H.
  - exists EmptyString, s. auto.
  - destruct s as [|c s]; [discriminate|].
    destruct (Ascii.eqb_spec (fold a) (fold c)) as [Heq|]; [|discriminate].
    destruct (IH _ _ _ H) as (s1 & s2 & -> & Hf & Hk).
    exists (String c s1), s2. simpl. rewrite Heq, Hf. auto.
Qed.

Lemma star_sound (p : ascii -> bool) :
  forall (s : string) (k : string -> option R) (v : R),
    RegExp.star p s k = Some v ->
    exists s1 s2, s = s1 ++ s2 /\ Reference.all_in p s1 = true /\ k s2 = Some v.
Proof.
  induction s as [|c s IH]; intros k v H; simpl in H.
  - exists EmptyString, EmptyString. auto.
  - destruct (p c) eqn:Hp.
    + destruct (RegExp.star p s k) as [r|] eqn:Hs.
      * injection H as ->. destruct (IH _ _ Hs) as (s1 & s2 & -> & Ha & Hk).
        exists (String c s1), s2. simpl. rewrite Hp, Ha. auto.
      * exists EmptyString, (String c s). auto.
    + exists EmptyString, (String c s). auto.
Qed.

Lemma rx_sound (r : RegExp.regex) :
  forall (s : string) (k : string -> option R) (v : R),
    RegExp.rx fold r s k = Some v ->
    exists s1 s2, s = s1 ++ s2 /\ Reference.matches fold r s1 /\ k s2 = Some v.
Proof.
  induction r as [|p|l|r1 IH1 r2 IH2|r1 IH1 r2 IH2|p|p]; intros s k v H; simpl in H.
  - exists EmptyString, s. split; [reflexivity|]. split; [constructor | exact H].
  - destruct s as [|c s]; [discriminate|]. destruct (p c) eqn:Hp; [|discriminate].
    exists (String c EmptyString), s. split; [reflexivity|].
    split; [now constructor | exact H].
  - destruct (lit_sound _ _ _ _ H) as (s1 & s2 & -> & Hf & Hk).
    exists s1, s2. split; [reflexivity|]. split; [now constructor | exact Hk].
  - destruct (IH1 _ _ _ H) as (s1 & s' & -> & H1 & H').
    destruct (IH2 _ _ _ H') as (s2 & s3 & -> & H2 & Hk).
    exists (s1 ++ s2), s3. split; [now rewrite append_assoc|].
    split; [now constructor | exact Hk].
  - destruct (RegExp.rx fold r1 s k) as [r|] eqn:Hr.
    + injection H as ->. destruct (IH1 _ _ _ Hr) as (s1 & s2 & -> & H1 & Hk).
      exists s1, s2. split; [reflexivity|]. split; [now apply Reference.matches_alt_l | exact Hk].
    + destruct (IH2 _ _ _ H) as (s1 & s2 & -> & H2 & Hk).
      exists s1, s2. split; [reflexivity|]. split; [now apply Reference.matches_alt_r | exact Hk].
  - destruct (star_sound _ _ _ _ H) as (s1 & s2 & -> & Ha & Hk).
    exists s1, s2. split; [reflexivity|]. split; [now constructor | exact Hk].
  - destruct s as [|c s]; [discriminate|]. destruct (p c) eqn:Hp; [|discriminate].
    destruct (star_sound _ _ _ _ H) as (s1 & s2 & -> & Ha & Hk).
    exists (String c s1), s2. split; [reflexivity|]. split; [now constructor | exact Hk].
Qed.
End MatcherFacts.

Lemma take_app (a b : string) : RegExp.take (String.length a) (a ++ b) = a.
Proof.
  unfold RegExp.take. induction a as [|c a IH]; simpl.
  - destruct b; reflexivity.
  - now rewrite IH.
Qed.

Lemma length_append (a b : string) :
  String.length (a ++ b) = String.length a + String.length b.
Proof. induction a as [|c a IH]; simpl; [reflexivity | now rewrite IH]. Qed.

Lemma match_here_sound (p : RegExp.pattern) (s g : string) :
  RegExp.match_here p s = Some g -> Reference.occurs p s g.
Proof.
  unfold RegExp.match_here. intros H.
  destruct (rx_sound _ _ _ _ _ H) as (a & s1 & -> & Ha & H1).
  destruct (rx_sound _ _ _ _ _ H1) as (g' & s2 & -> & Hg & H2).
  destruct (rx_sound _ _ _ _ _ H2) as (b & after & -> & Hb & H3).
  injection H3 as <-.
  rewrite length_append. replace (_ + _ - _) with (String.length g') by lia.
  rewrite take_app.
  exists EmptyString, a, b, after. auto.
Qed.

Lemma str_match_sound (p : RegExp.pattern) (s g : string) :
  RegExp.str_match p s = Some g -> Reference.occurs p s g.
Proof.
  induction s as [|c s IH]; simpl.
  - destruct (RegExp.match_here p EmptyString) eqn:H; [|discriminate].
    intros [= ->]. now apply match_here_sound.
  - destruct (RegExp.match_here p (String c s)) eqn:H.
    + intros [= ->]. now apply match_here_sound.
    + intros H'. destruct (IH H') as (before & a & b & after & -> & Ha & Hg & Hb).
      exists (String c before), a, b, after. auto.
Qed.

Lemma matches_seq_inv fold r1 r2 s :
  Reference.matches fold (RegExp.Seq r1 r2) s ->
  exists s1 s2, s = s1 ++ s2 /\ Reference.matches fold r1 s1 /\ Reference.matches fold r2 s2.
Proof. inversion 1; subst. eauto. Qed.

Lemma matches_lit_inv fold l s :
  Reference.matches fold (RegExp.Lit l) s ->
  Reference.fold_string fold l = Reference.fold_string fold s.
Proof. now inversion 1. Qed.



(** ** The decoding of entities *)

Lemma truthy_cons (c : ascii) (s : string) : Js.truthy (String c s) = true.
Proof. reflexivity. Qed.

Lemma truthy_append_l (a b : string) : Js.truthy a = true -> Js.truthy (a ++ b) = true.
Proof. destruct a; [discriminate | reflexivity]. Qed.

Lemma truthy_append_r (a b : string) : Js.truthy b = true -> Js.truthy (a ++ b) = true.
Proof. destruct a; [trivial | reflexivity]. Qed.

Lemma replaceAll_truthy (pat rep s : string) :
  Js.truthy rep = true -> Js.truthy s = true -> Js.truthy (Js.replaceAll pat rep s) = true.
Proof.
  intros Hr Hs. destruct s as [|c s]; [discriminate|].
  unfold Js.replaceAll. cbn [Js.replaceAll_aux].
  destruct (String.prefix pat (String c s)); [now apply truthy_append_l | reflexivity].
Qed.

Lemma decodeHtmlEntities_truthy (s : string) :
  Js.truthy s = true -> Js.truthy (Resolver.decodeHtmlEntities s) = true.
Proof.
  intros H. unfold Resolver.decodeHtmlEntities.
  repeat (apply replaceAll_truthy; [reflexivity|]). exact H.
Qed.




(** ** The candidates of the three extractors *)

Section Candidates.
Variable new_URL : string -> option URL.




End Candidates.



(** ** The fall-back on a PDF link *)

Lemma prefix_nil_r (p : string) : String.prefix p EmptyString = negb (Js.truthy p).
Proof. destruct p; reflexivity. Qed.

Lemma prefix_snoc (p s : string) (c : ascii) :
  Js.truthy p = true -> Reference.absent c p = true ->
  String.prefix p (s ++ String c EmptyString) = String.prefix p s.
Proof.
  revert s. induction p as [|a p IH]; intros s Hp Ha; [discriminate|].
  simpl in Ha. apply andb_true_iff in Ha as [Hac Ha].
  apply negb_true_iff, Ascii.eqb_neq in Hac.
  destruct s as [|d s].
  - change (EmptyString ++ String c EmptyString) with (String c EmptyString).
    simpl. destruct (ascii_dec a c); [contradiction | reflexivity].
  - change (String d s ++ String c EmptyString) with (String d (s ++ String c EmptyString)).
    simpl. destruct (ascii_dec a d); [|reflexivity].
    destruct p as [|b p].
    + destruct (s ++ String c EmptyString), s; reflexivity.
    + now apply IH.
Qed.

Lemma includes_snoc (s p : string) (c : ascii) :
  Js.truthy p = true -> Reference.absent c p = true ->
  Js.includes (s ++ String c EmptyString) p = Js.includes s p.
Proof.
  intros Hp Ha. induction s as [|d s IH].
  - change (EmptyString ++ String c EmptyString) with (String c EmptyString).
    pose proof (prefix_snoc p EmptyString c Hp Ha) as H.
    change (EmptyString ++ String c EmptyString) with (String c EmptyString) in H.
    cbn [Js.includes]. rewrite H, prefix_nil_r, Hp. reflexivity.
  - change (String d s ++ String c EmptyString) with (String d (s ++ String c EmptyString)).
    cbn [Js.includes]. rewrite IH.
    pose proof (prefix_snoc p (String d s) c Hp Ha) as H.
    change (String d s ++ String c EmptyString)
      with (String d (s ++ String c EmptyString)) in H.
    now rewrite H.
Qed.

Lemma normalizeUrl_unmarked (url : string) :
  Js.includes url "wpdmdl=" = false ->
  Js.includes (Resolver.normalizeUrl url) "wpdmdl=" = false.
Proof.
  intros H. destruct (normalizeUrl_cases url) as [-> | ->]; [exact H|].
  rewrite includes_snoc; [exact H | reflexivity | reflexivity].
Qed.

Lemma fold_string_truthy fold (l s : string) :
  Reference.fold_string fold l = Reference.fold_string fold s ->
  Js.truthy l = true -> Js.truthy s = true.
Proof. destruct l, s; simpl; intros; try discriminate; reflexivity. Qed.

(** The group of the PDF pattern never captures the empty text. *)
Lemma pdf_group_truthy (html g : string) :
  RegExp.str_match Resolver.pdfLink_re html = Some g -> Js.truthy g = true.
Proof.
  intros H. apply str_match_sound in H as (_ & _ & _ & _ & _ & _ & Hm & _).
  apply matches_seq_inv in Hm as (s1 & s' & -> & _ & Hm).
  apply matches_seq_inv in Hm as (s2 & s3 & -> & Hl & _).
  apply matches_lit_inv in Hl.
  apply truthy_append_r, truthy_append_l.
  exact (fold_string_truthy _ _ _ Hl eq_refl).
Qed.

Section PdfFallback.
Variable new_URL : string -> option URL.
Variable scrape : string -> outcome ScrapeResult.

(** C10, as the code has it.  When the scrape captured no download, the URL
    is without [wpdmdl=] and contains [/download/] (or the content carries a
    download-manager marker), no [href] of the content has a [wpdmdl] number
    and some [href] contains [.pdf], then [scrapeDocument] returns the first
    such [href], decoded and put behind the protocol and host of the
    normalised URL when it starts with a slash, as a PDF that is not
    complete, under the strategy [wordpress-pdf-link]. *)
Theorem pdf_link_fallback (url g : string) (result : ScrapeResult) (u : URL) :
  scrape (Resolver.normalizeUrl url) = Returned result ->
  raw_downloads (r_raw result) = None \/ raw_downloads (r_raw result) = Some [] ->
  Js.includes url "wpdmdl=" = false ->
  Js.includes url "/download/" = true \/
    Js.includes (r_content result) "wpdm-download-link" = true \/
    Js.includes (r_content result) "wpdm_view_count" = true ->
  RegExp.str_match Resolver.wpdmLink_re (r_content result) = None ->
  RegExp.str_match Resolver.pdfLink_re (r_content result) = Some g ->
  new_URL (Resolver.normalizeUrl url) = Some u ->
  Resolver.scrapeDocument new_URL scrape url =
  Returned
    {| doc_url :=
         if Js.startsWith (Resolver.decodeHtmlEntities g) "/"
         then protocol u ++ "//" ++ host u ++ Resolver.decodeHtmlEntities g
         else Resolver.decodeHtmlEntities g;
       doc_type := "application/pdf";
       doc_isDownload := false;
       doc_filename := None;
       doc_isPdf := true;
       doc_complete := false;
       doc_strategy := "wordpress-pdf-link" |}.
Proof.
  intros Hs Hd Hu Hm Hw Hp Hurl.
  assert (Hwp : Resolver.extractWordPressDownloadUrl new_URL (Resolver.normalizeUrl url)
                  (r_content result)
                = Returned (Some (if Js.startsWith (Resolver.decodeHtmlEntities g) "/"
                                  then protocol u ++ "//" ++ host u ++
                                       Resolver.decodeHtmlEntities g
                                  else Resolver.decodeHtmlEntities g))).
  { unfold Resolver.extractWordPressDownloadUrl.
    rewrite (normalizeUrl_unmarked _ Hu), Hw, Hp.
    assert (Hpage : Js.includes (Resolver.normalizeUrl url) "/download/" ||
                    Js.includes (r_content result) "wpdm-download-link" ||
                    Js.includes (r_content result) "wpdm_view_count" = true).
    { destruct Hm as [H | [H | H]].
      - now rewrite (normalizeUrl_includes _ _ H).
      - rewrite H. now rewrite orb_true_r.
      - rewrite H. now rewrite orb_true_r. }
    rewrite Hpage. cbn [negb].
    unfold Resolver.absolute_if_slash, Resolver.with_origin. rewrite Hurl.
    now destruct (Js.startsWith _ _). }
  assert (Ht : Js.truthy (if Js.startsWith (Resolver.decodeHtmlEntities g) "/"
                          then protocol u ++ "//" ++ host u ++
                               Resolver.decodeHtmlEntities g
                          else Resolver.decodeHtmlEntities g) = true).
  { destruct (Js.startsWith _ _).
    - apply truthy_append_r, truthy_append_l. reflexivity.
    - apply decodeHtmlEntities_truthy. exact (pdf_group_truthy _ _ Hp). }
  unfold Resolver.scrapeDocument. rewrite Hs. cbn [bind].
  destruct Hd as [-> | ->]; rewrite Hwp; cbn [bind Resolver.truthy_url];
    rewrite Ht; reflexivity.
Qed.
End PdfFallback.

(** The page of the document fixture: a link to [/files/document.pdf] on a
    download page. *)
Lemma pdf_link_fallback_witness :
  Resolver.scrapeDocument Sample.new_URL
    (Sample.scrape_page "<a href='/files/document.pdf'>Document</a>" None)
    "https://x/download/doc"
  = Returned
      {| doc_url := "https://x/files/document.pdf";
         doc_type := "application/pdf";
         doc_isDownload := false;
         doc_filename := None;
         doc_isPdf := true;
         doc_complete := false;
         doc_strategy := "wordpress-pdf-link" |}.
Proof.
  exact (pdf_link_fallback Sample.new_URL
           (Sample.scrape_page "<a href='/files/document.pdf'>Document</a>" None)
           "https://x/download/doc" "/files/document.pdf" _
           {| protocol := "https:"; host := "x" |}
           eq_refl (or_introl eq_refl) eq_refl (or_introl eq_refl)
           eq_refl eq_refl eq_refl).
Defined.

(** C10, as stated, fails when the scrape captured a download: the same
    download page with a PDF link is then reported as [direct-download], with
    the URL of the downloaded file. *)
Lemma download_takes_precedence :
  Js.includes "https://x/download/doc/" "wpdmdl=" = false /\
  Js.includes "https://x/download/doc/" "/download/" = true /\
  RegExp.str_match Resolver.wpdmLink_re "<a href='/files/document.pdf'>Document</a>" = None /\
  RegExp.str_match Resolver.pdfLink_re "<a href='/files/document.pdf'>Document</a>"
  = Some "/files/document.pdf" /\
  exists d,
    Resolver.scrapeDocument Sample.new_URL
      (Sample.scrape_page "<a href='/files/document.pdf'>Document</a>"
         (Some Sample.a_download))
      "https://x/download/doc/" = Returned d /\
    doc_strategy d = "direct-download" /\
    doc_url d = "https://x/files/minutes.pdf" /\
    doc_strategy d <> "wordpress-pdf-link".
Proof.
  repeat (split; [vm_compute; reflexivity|]).
  eexists. split; [vm_compute; reflexivity|].
  split; [reflexivity|]. split; [reflexivity | discriminate].
Qed.

(** * Further properties of the resolver *)

Lemma substring_app_r (a b : string) (n : nat) :
  String.substring (String.length a) n (a ++ b) = String.substring 0 n b.
Proof.
  induction a as [|c a IH]; [reflexivity|].
  change (String c a ++ b) with (String c (a ++ b)). exact IH.
Qed.

Lemma endsWith_app (s p : string) : Js.endsWith (s ++ p) p = true.
Proof.
  unfold Js.endsWith, Js.suffix_from. rewrite length_append.
  replace (String.length s + String.length p - String.length p) with (String.length s) by lia.
  rewrite substring_app_r.
  replace (String.substring 0 (String.length p) p) with p.
  - rewrite String.eqb_refl, andb_true_r. apply Nat.leb_le. lia.
  - clear s. induction p as [|c p IH]; [reflexivity|]. simpl. now rewrite <- IH.
Qed.

(** X1.  Normalising the URL of a download page twice is the same as normalising
    it once: the slash is appended at most once. *)
Theorem normalizeUrl_idempotent (url : string) :
  Resolver.normalizeUrl (Resolver.normalizeUrl url) = Resolver.normalizeUrl url.
Proof.
  destruct (normalizeUrl_cases url) as [E | E]; rewrite !E; [reflexivity|].
  unfold Resolver.normalizeUrl. rewrite endsWith_app.
  now rewrite andb_false_r.
Qed.

Section DocumentResults.
Variable new_URL : string -> option URL.
Variable scrape : string -> outcome ScrapeResult.


(** The five shapes of a result of [scrapeDocument]. *)
Lemma scrapeDocument_cases (url : string) (d : DocumentResult) :
  Resolver.scrapeDocument new_URL scrape url = Returned d ->
  (exists download, d = Resolver.download_result (Resolver.normalizeUrl url) download) \/
  (exists link, Js.truthy link = true /\
     (d = Resolver.link_result link "application/pdf" "wordpress-pdf-link" true \/
      d = Resolver.link_result link "application/pdf" "civicweb-pdf-link" true \/
      d = Resolver.link_result link
            (if Js.endsWith (Js.toLowerCase link) ".pdf"
             then "application/pdf" else "application/octet-stream")
            "docushare-doc-link" (Js.endsWith (Js.toLowerCase link) ".pdf"))) \/
  (exists (isPdf complete : bool) (type : ScraperType),
     d = {| doc_url := Resolver.normalizeUrl url;
            doc_type := if isPdf then "application/pdf" else "text/html";
            doc_isDownload := false;
            doc_filename := None;
            doc_isPdf := isPdf;
            doc_complete := complete;
            doc_strategy := ScraperType_name type |}).
Proof.
  assert (Ht : forall o link, Resolver.truthy_url o = Some link -> Js.truthy link = true).
  { intros [s|] link; simpl; [|discriminate].
    destruct (Js.truthy s) eqn:E; [now intros [= <-] | discriminate]. }
  unfold Resolver.scrapeDocument.
  destruct (scrape (Resolver.normalizeUrl url)) as [result|e]; cbn [bind]; [|discriminate].
  destruct (raw_downloads (r_raw result)) as [[|download ?]|].
  2: { intros [= <-]. left. now exists download. }
  all: destruct (Resolver.extractWordPressDownloadUrl _ _ _) as [wp|]; cbn [bind];
    [|discriminate];
    destruct (Resolver.truthy_url wp) as [link|] eqn:Hwp;
    [intros [= <-]; right; left; exists link; split; [exact (Ht _ _ Hwp) | now left]|];
    destruct (Resolver.extractCivicWebDocumentUrl _ _ _) as [cw|]; cbn [bind];
    [|discriminate];
    destruct (Resolver.truthy_url cw) as [link|] eqn:Hcw;
    [intros [= <-]; right; left; exists link; split;
       [exact (Ht _ _ Hcw) | now right; left]|];
    destruct (Resolver.extractDocuShareDocumentUrl _ _ _) as [ds|]; cbn [bind];
    [|discriminate];
    destruct (Resolver.truthy_url ds) as [link|] eqn:Hds;
    [intros [= <-]; right; left; exists link; split;
       [exact (Ht _ _ Hds) | now right; right]|];
    intros [= <-]; right; right; eauto.
Qed.


(** X3.  A landing-page classification is always provisional: under the three
    link strategies the result is never complete, is no download, and its
    URL is never empty. *)
Theorem link_results_are_provisional (url : string) (d : DocumentResult) :
  Resolver.scrapeDocument new_URL scrape url = Returned d ->
  doc_strategy d = "wordpress-pdf-link" \/
    doc_strategy d = "civicweb-pdf-link" \/
    doc_strategy d = "docushare-doc-link" ->
  doc_complete d = false /\ doc_isDownload d = false /\ Js.truthy (doc_url d) = true.
Proof.
  intros H Hs. apply scrapeDocument_cases in H
    as [[download ->] | [(link & Ht & [-> | [-> | ->]]) | (isPdf & complete & type & ->)]].
  - cbn in Hs. destruct Hs as [Hs | [Hs | Hs]]; discriminate.
  - now repeat split.
  - now repeat split.
  - now repeat split.
  - cbn in Hs. destruct type; destruct Hs as [Hs | [Hs | Hs]]; discriminate.
Qed.
End DocumentResults.


(** A CivicWeb preview page with a link to the document. *)
Lemma link_results_are_provisional_witness :
  exists d,
    Resolver.scrapeDocument Sample.new_URL
      (Sample.scrape_page "<a href='/filepro/document/52835/Minutes.pdf'>PDF</a>" None)
      "https://x.civicweb.net/filepro/documents/?preview=52835" = Returned d /\
    doc_strategy d = "civicweb-pdf-link" /\
    doc_complete d = false /\ doc_isDownload d = false /\ Js.truthy (doc_url d) = true.
Proof.
  eexists. split; [vm_compute; reflexivity|]. split; [reflexivity|].
  eapply (link_results_are_provisional Sample.new_URL
            (Sample.scrape_page "<a href='/filepro/document/52835/Minutes.pdf'>PDF</a>" None)
            "https://x.civicweb.net/filepro/documents/?preview=52835").
  - vm_compute. reflexivity.
  - right. left. reflexivity.
Defined.

(** * Document links *)

Lemma lower_ascii_idempotent (c : ascii) :
  Js.lower_ascii (Js.lower_ascii c) = Js.lower_ascii c.
Proof. destruct c as [[] [] [] [] [] [] [] []]; reflexivity. Qed.

Lemma toLowerCase_idempotent (s : string) :
  Js.toLowerCase (Js.toLowerCase s) = Js.toLowerCase s.
Proof.
  induction s as [|c s IH]; [reflexivity|]. simpl.
  now rewrite lower_ascii_idempotent, IH.
Qed.

Lemma toLowerCase_substring (s : string) (n m : nat) :
  Js.toLowerCase (String.substring n m s) = String.substring n m (Js.toLowerCase s).
Proof.
  revert n m. induction s as [|c s IH]; intros [|n] [|m]; simpl; try reflexivity.
  - now rewrite IH.
  - apply IH.
  - apply IH.
Qed.

(** What ends a lower-cased text is itself in lower case. *)
Lemma endsWith_lowered (s ext : string) :
  Js.endsWith (Js.toLowerCase s) ext = true -> Js.toLowerCase ext = ext.
Proof.
  unfold Js.endsWith, Js.suffix_from. intros H.
  apply andb_true_iff in H as [_ H]. apply String.eqb_eq in H.
  rewrite <- H at 1. rewrite toLowerCase_substring, toLowerCase_idempotent. exact H.
Qed.

Lemma set_add_elem (seen : list string) (x y : string) :
  y ∈ DocumentLinks.set_add seen x <-> y ∈ seen \/ y = x.
Proof.
  unfold DocumentLinks.set_add. destruct (existsb (String.eqb x) seen) eqn:E.
  - apply existsb_exists in E as (z & Hz & Hxz). apply String.eqb_eq in Hxz as <-.
    apply list_elem_of_In in Hz. split; [now left | intros [H | ->]; assumption].
  - rewrite elem_of_app, list_elem_of_singleton. reflexivity.
Qed.

Lemma set_add_NoDup (seen : list string) (x : string) :
  NoDup seen -> NoDup (DocumentLinks.set_add seen x).
Proof.
  intros H. unfold DocumentLinks.set_add. destruct (existsb (String.eqb x) seen) eqn:E.
  - exact H.
  - apply NoDup_app. split; [exact H|]. split; [|apply NoDup_singleton].
    intros y Hy Hy'. apply list_elem_of_singleton in Hy' as ->.
    assert (existsb (String.eqb x) seen = true); [|congruence].
    apply existsb_exists. exists x. split; [now apply list_elem_of_In | apply String.eqb_refl].
Qed.

Lemma unique_fold (xs seen : list string) :
  NoDup seen ->
  NoDup (foldl DocumentLinks.set_add seen xs) /\
  forall y, y ∈ foldl DocumentLinks.set_add seen xs <-> y ∈ seen \/ y ∈ xs.
Proof.
  revert seen. induction xs as [|x xs IH]; intros seen H; simpl.
  - split; [exact H|]. intros y. split; [now left | intros [H'|H']; [exact H' | inversion H']].
  - destruct (IH _ (set_add_NoDup seen x H)) as [Hnd Hin]. split; [exact Hnd|].
    intros y. rewrite Hin, set_add_elem, elem_of_cons. tauto.
Qed.

Section DocumentLinkFacts.
Variable scrape : string -> outcome ScrapeResult.

(** X4.  [findDocumentLinks] returns every [href] of the page whose lower-cased
    form ends with one of the extensions, each exactly once, and nothing
    else. *)
Theorem document_links_exact (url : string) (extensions : option (list string))
    (result : ScrapeResult) :
  scrape url = Returned result ->
  exists found,
    DocumentLinks.findDocumentLinks scrape url extensions = Returned found /\
    NoDup found /\
    forall h,
      h ∈ found <->
      exists link,
        link ∈ r_links result /\ href link = h /\
        DocumentLinks.is_document
          (default DocumentLinks.default_extensions extensions) link = true.
Proof.
  intros Hs. unfold DocumentLinks.findDocumentLinks. rewrite Hs. cbn [bind].
  eexists. split; [reflexivity|].
  destruct (unique_fold
              (map href (List.filter
                 (DocumentLinks.is_document
                    (default DocumentLinks.default_extensions extensions))
                 (r_links result))) [] (NoDup_nil_2)) as [Hnd Hin].
  split; [exact Hnd|]. intros h. unfold DocumentLinks.unique. rewrite Hin.
  split.
  - intros [H | H]; [inversion H|].
    apply list_elem_of_fmap in H as (link & -> & Hl).
    apply list_elem_of_In, filter_In in Hl as [Hl Hd].
    exists link. split; [now apply list_elem_of_In | auto].
  - intros (link & Hl & <- & Hd). right.
    apply list_elem_of_fmap. exists link. split; [reflexivity|].
    apply list_elem_of_In, filter_In. split; [now apply list_elem_of_In | exact Hd].
Qed.

(** X5.  The extensions are compared with the lower-cased [href] as they are
    given: when every extension of the caller holds an upper-case letter,
    nothing is found, whatever the page links to. *)
Theorem upper_case_extensions_find_nothing (url : string) (extensions : list string)
    (result : ScrapeResult) :
  scrape url = Returned result ->
  (forall ext, ext ∈ extensions -> Js.toLowerCase ext <> ext) ->
  DocumentLinks.findDocumentLinks scrape url (Some extensions) = Returned [].
Proof.
  intros Hs Hup. unfold DocumentLinks.findDocumentLinks. rewrite Hs. cbn [bind].
  change (default DocumentLinks.default_extensions (Some extensions)) with extensions.
  replace (List.filter (DocumentLinks.is_document extensions) (r_links result)) with (@nil Link);
    [reflexivity|].
  symmetry. induction (r_links result) as [|link links IH]; [reflexivity|].
  simpl. rewrite <- IH.
  destruct (DocumentLinks.is_document extensions link) eqn:E; [|reflexivity].
  unfold DocumentLinks.is_document in E. apply existsb_exists in E as (ext & Hin & He).
  apply endsWith_lowered in He. apply list_elem_of_In in Hin.
  now destruct (Hup ext Hin).
Qed.
End DocumentLinkFacts.

(** A page that links twice to a PDF in upper case, to a text file and to a
    picture. *)
Lemma document_links_exact_witness :
  DocumentLinks.findDocumentLinks
    (Sample.scrape_links ["/a/Report.PDF"; "/b/notes.txt"; "/a/Report.PDF"; "/c/logo.png"])
    "https://x/publications" None
  = Returned ["/a/Report.PDF"; "/b/notes.txt"].
Proof.
  destruct (document_links_exact
              (Sample.scrape_links
                 ["/a/Report.PDF"; "/b/notes.txt"; "/a/Report.PDF"; "/c/logo.png"])
              "https://x/publications" None _ eq_refl) as (found & E & _).
  rewrite E. vm_compute in E. now injection E as <-.
Defined.

(** The same page searched with the extension written in upper case. *)
Lemma upper_case_extensions_find_nothing_witness :
  DocumentLinks.findDocumentLinks
    (Sample.scrape_links ["/a/Report.PDF"; "/b/notes.txt"; "/a/Report.PDF"; "/c/logo.png"])
    "https://x/publications" (Some [".PDF"])
  = Returned [].
Proof.
  apply (upper_case_extensions_find_nothing _ _ _ _ eq_refl).
  intros ext H. apply list_elem_of_singleton in H as ->. discriminate.
Defined.

(** * Download helpers *)

Lemma substring_split (s : string) (n : nat) :
  n <= String.length s ->
  s = String.substring 0 n s ++ String.substring n (String.length s - n) s.
Proof.
  revert n. induction s as [|c s IH]; intros [|n] H; simpl in *.
  - reflexivity.
  - lia.
  - change (EmptyString ++ String c (String.substring 0 (String.length s) s))
      with (String c (String.substring 0 (String.length s) s)).
    f_equal. clear. induction s as [|d s IH]; [reflexivity|]. simpl. now rewrite <- IH.
  - change (String c (String.substring 0 n s) ++ String.substring n (String.length s - n) s)
      with (String c (String.substring 0 n s ++ String.substring n (String.length s - n) s)).
    f_equal. apply IH. lia.
Qed.

Lemma endsWith_inv (s p : string) : Js.endsWith s p = true -> exists x, s = x ++ p.
Proof.
  unfold Js.endsWith, Js.suffix_from. intros H.
  apply andb_true_iff in H as [Hlen H].
  apply Nat.leb_le in Hlen. apply String.eqb_eq in H.
  exists (String.substring 0 (String.length s - String.length p) s).
  assert (Hs := substring_split s (String.length s - String.length p)).
  replace (String.length s - (String.length s - String.length p))
    with (String.length p) in Hs by lia.
  rewrite H in Hs. apply Hs. lia.
Qed.

Lemma all_in_app (p : ascii -> bool) (a b : string) :
  Reference.all_in p (a ++ b) = Reference.all_in p a && Reference.all_in p b.
Proof.
  induction a as [|c a IH]; [reflexivity|].
  change (String c a ++ b) with (String c (a ++ b)). simpl. now rewrite IH, andb_assoc.
Qed.

Section EndAnchor.
Context {R : Type}.
Variable fold : ascii -> ascii.
(** The continuation of [$]: it accepts the empty rest only. *)
Variable k : string -> option R.
Hypothesis k_rest : forall c s, k (String c s) = None.

Lemma star_end_none (p : ascii -> bool) (s : string) :
  Reference.all_in p s = false -> RegExp.star p s k = None.
Proof.
  induction s as [|c s IH]; simpl; [discriminate|].
  destruct (p c); simpl; intros H.
  - rewrite (IH H). apply k_rest.
  - apply k_rest.
Qed.

Lemma star_end_all (p : ascii -> bool) (s : string) :
  Reference.all_in p s = true -> RegExp.star p s k = k EmptyString.
Proof.
  induction s as [|c s IH]; simpl; [reflexivity|].
  destruct (p c); simpl; [|discriminate]. intros H. rewrite (IH H).
  destruct (k EmptyString); [reflexivity | apply k_rest].
Qed.

Lemma plus_end_none (p : ascii -> bool) (s : string) :
  Reference.all_in p s = false -> RegExp.rx fold (RegExp.Plus p) s k = None.
Proof.
  destruct s as [|c s]; simpl; [reflexivity|].
  destruct (p c); simpl; [apply star_end_none | reflexivity].
Qed.
End EndAnchor.

Lemma rx_class_then {R : Type} (fold : ascii -> ascii) (p : ascii -> bool)
    (r : RegExp.regex) (c : ascii) (t : string) (k : string -> option R) :
  RegExp.rx fold (RegExp.Seq (RegExp.Class p) r) (String c t) k
  = if p c then RegExp.rx fold r t k else None.
Proof. reflexivity. Qed.

Lemma extension_here_none (c : ascii) (t : string) :
  Reference.all_in DownloadUtils.not_dot t = false ->
  DownloadUtils.match_end_here DownloadUtils.extension_re (String c t) = None.
Proof.
  intros H. unfold DownloadUtils.match_end_here, DownloadUtils.extension_re.
  rewrite rx_class_then. destruct (DownloadUtils.is_dot c); [|reflexivity].
  apply plus_end_none; [reflexivity | exact H].
Qed.

Lemma extension_here_some (e : string) :
  Js.truthy e = true -> Reference.all_in DownloadUtils.not_dot e = true ->
  DownloadUtils.match_end_here DownloadUtils.extension_re (String "." e)
  = Some (String "." e).
Proof.
  intros He Ha. unfold DownloadUtils.match_end_here, DownloadUtils.extension_re.
  rewrite rx_class_then. change (DownloadUtils.is_dot ".") with true. cbn iota.
  destruct e as [|d e]; [discriminate|].
  simpl in Ha. apply andb_true_iff in Ha as [Hd Ha].
  cbn [RegExp.rx]. rewrite Hd. now rewrite star_end_all.
Qed.

Lemma extension_of_suffix (x e : string) :
  Js.truthy e = true -> Reference.all_in DownloadUtils.not_dot e = true ->
  DownloadUtils.str_match_end DownloadUtils.extension_re (x ++ String "." e)
  = Some (String "." e).
Proof.
  intros He Ha. induction x as [|c x IH].
  - change (EmptyString ++ String "." e) with (String "."%char e).
    cbn [DownloadUtils.str_match_end]. now rewrite extension_here_some.
  - change (String c x ++ String "." e) with (String c (x ++ String "."%char e)).
    cbn [DownloadUtils.str_match_end]. rewrite extension_here_none; [exact IH|].
    rewrite all_in_app. simpl. apply andb_false_r.
Qed.

Lemma extension_none_without_dot (s : string) :
  Reference.all_in DownloadUtils.not_dot s = true ->
  DownloadUtils.str_match_end DownloadUtils.extension_re s = None.
Proof.
  induction s as [|c s IH]; [reflexivity|]. simpl. intros H.
  apply andb_true_iff in H as [Hc H].
  cbn [DownloadUtils.str_match_end]. rewrite (IH H).
  unfold DownloadUtils.match_end_here, DownloadUtils.extension_re.
  rewrite rx_class_then.
  unfold DownloadUtils.not_dot in Hc. apply negb_true_iff in Hc. now rewrite Hc.
Qed.

Lemma extension_none_after_dot (x : string) :
  DownloadUtils.str_match_end DownloadUtils.extension_re (x ++ ".") = None.
Proof.
  induction x as [|c x IH]; [reflexivity|].
  change (String c x ++ ".") with (String c (x ++ ".")).
  cbn [DownloadUtils.str_match_end]. rewrite IH.
  destruct x as [|d x].
  - unfold DownloadUtils.match_end_here, DownloadUtils.extension_re.
    rewrite rx_class_then. destruct (DownloadUtils.is_dot c); reflexivity.
  - rewrite extension_here_none; [reflexivity|].
    rewrite all_in_app. simpl. apply andb_false_r.
Qed.

Lemma lower_dot (c : ascii) :
  DownloadUtils.not_dot (Js.lower_ascii c) = DownloadUtils.not_dot c.
Proof. destruct c as [[] [] [] [] [] [] [] []]; reflexivity. Qed.

Lemma all_in_not_dot_lower (s : string) :
  Reference.all_in DownloadUtils.not_dot (Js.toLowerCase s)
  = Reference.all_in DownloadUtils.not_dot s.
Proof. induction s as [|c s IH]; [reflexivity|]. simpl. now rewrite lower_dot, IH. Qed.

Lemma toLowerCase_app (a b : string) :
  Js.toLowerCase (a ++ b) = Js.toLowerCase a ++ Js.toLowerCase b.
Proof.
  induction a as [|c a IH]; [reflexivity|].
  change (String c a ++ b) with (String c (a ++ b)). simpl. now rewrite IH.
Qed.

Lemma MIME_TYPES_truthy (ext type : string) :
  DownloadUtils.MIME_TYPES !! ext = Some type -> Js.truthy type = true.
Proof.
  revert ext type. change (map_Forall (fun _ t => Js.truthy t = true) DownloadUtils.MIME_TYPES).
  unfold DownloadUtils.MIME_TYPES. cbn [list_to_map foldr uncurry fst snd].
  repeat (apply map_Forall_insert_2; [reflexivity|]). apply map_Forall_empty.
Qed.

Lemma inferContentType_of_suffix (name x e : string) :
  Js.toLowerCase name = x ++ String "." e ->
  Js.truthy e = true ->
  Reference.all_in DownloadUtils.not_dot e = true ->
  DownloadUtils.inferContentType (Some name)
  = default DownloadUtils.octet_stream (DownloadUtils.MIME_TYPES !! String "." e).
Proof.
  intros Hn He Ha. unfold DownloadUtils.inferContentType.
  assert (Js.truthy name = true) as ->.
  { destruct name; [|reflexivity]. destruct x; discriminate. }
  cbn [negb]. rewrite Hn, (extension_of_suffix _ _ He Ha).
  destruct (DownloadUtils.MIME_TYPES !! String "." e) as [type|] eqn:E; [|reflexivity].
  now rewrite (MIME_TYPES_truthy _ _ E).
Qed.

(** X6.  The content type is decided by the text behind the last dot of the file
    name, without regard to case: it is the entry of the table for that
    extension, and [application/octet-stream] when the table has none. *)
Theorem content_type_by_last_extension (name x e : string) :
  Js.toLowerCase name = x ++ String "." e ->
  Js.truthy e = true ->
  Reference.all_in DownloadUtils.not_dot e = true ->
  DownloadUtils.inferContentType (Some name)
  = default DownloadUtils.octet_stream (DownloadUtils.MIME_TYPES !! String "." e).
Proof. apply inferContentType_of_suffix. Qed.

(** X7.  A file name without an extension (no name, an empty name, a name without
    a dot or a name that ends with a dot) has the type
    [application/octet-stream]. *)
Theorem content_type_without_extension (filename : option string) :
  match filename with
  | None => True
  | Some name =>
      Reference.all_in DownloadUtils.not_dot name = true \/ exists x, name = x ++ "."
  end ->
  DownloadUtils.inferContentType filename = DownloadUtils.octet_stream.
Proof.
  destruct filename as [name|]; [|reflexivity].
  unfold DownloadUtils.inferContentType. intros H.
  destruct (Js.truthy name); [|reflexivity]. cbn [negb].
  destruct H as [H | [x ->]].
  - rewrite extension_none_without_dot; [reflexivity|]. now rewrite all_in_not_dot_lower.
  - rewrite toLowerCase_app. change (Js.toLowerCase ".") with ".".
    now rewrite extension_none_after_dot.
Qed.

(** X8.  The two helpers agree on PDF files: a name that [isPdfFile] accepts has
    the content type [application/pdf]. *)
Theorem pdf_file_has_pdf_type (filename : option string) :
  DownloadUtils.isPdfFile filename = true ->
  DownloadUtils.inferContentType filename = "application/pdf".
Proof.
  destruct filename as [name|]; [|discriminate].
  unfold DownloadUtils.isPdfFile. intros H.
  apply endsWith_inv in H as [x Hx].
  rewrite (inferContentType_of_suffix name x "pdf" Hx eq_refl eq_refl).
  vm_compute. reflexivity.
Qed.

(** A dotted name, a name without a dot and a PDF name. *)
Lemma content_type_by_last_extension_witness :
  DownloadUtils.inferContentType (Some "Report.Final.PDF") = "application/pdf".
Proof.
  rewrite (content_type_by_last_extension "Report.Final.PDF" "report.final" "pdf"
             eq_refl eq_refl eq_refl).
  vm_compute. reflexivity.
Defined.

Lemma content_type_without_extension_witness :
  DownloadUtils.inferContentType (Some "README") = "application/octet-stream".
Proof.
  apply (content_type_without_extension (Some "README")). left. reflexivity.
Defined.

Lemma pdf_file_has_pdf_type_witness :
  DownloadUtils.inferContentType (Some "Minutes.PDF") = "application/pdf".
Proof. apply (pdf_file_has_pdf_type (Some "Minutes.PDF")). reflexivity. Defined.

(** ** Captured downloads *)

Section PlaywrightDownloads.
Variable readFile : string -> outcome (list ascii).

(** X9.  The record of a download always names the URL and the file of the
    download, and it carries either the content of the file, which was then
    read from the path of the download, or an error, never both and never
    neither. *)
Theorem download_info_content_or_error (download : DownloadUtils.Download) :
  d_url (DownloadUtils.handlePlaywrightDownload readFile download)
  = DownloadUtils.dl_url download /\
  d_filename (DownloadUtils.handlePlaywrightDownload readFile download)
  = DownloadUtils.dl_suggestedFilename download /\
  ((exists file content,
      DownloadUtils.dl_path download = Returned (Some file) /\
      Js.truthy file = true /\
      readFile file = Returned content /\
      d_content (DownloadUtils.handlePlaywrightDownload readFile download) = Some content /\
      d_error (DownloadUtils.handlePlaywrightDownload readFile download) = None) \/
   (d_content (DownloadUtils.handlePlaywrightDownload readFile download) = None /\
    exists message,
      d_error (DownloadUtils.handlePlaywrightDownload readFile download) = Some message)).
Proof.
  unfold DownloadUtils.handlePlaywrightDownload.
  destruct (DownloadUtils.dl_path download) as [[file|]|message] eqn:Hp.
  - destruct (Js.truthy file) eqn:Ht.
    + destruct (readFile file) as [content|message] eqn:Hr.
      * split; [reflexivity|]. split; [reflexivity|]. left. exists file, content. auto.
      * split; [reflexivity|]. split; [reflexivity|]. right. split; [reflexivity|].
        now eexists.
    + split; [reflexivity|]. split; [reflexivity|]. right. split; [reflexivity|].
      now eexists.
  - split; [reflexivity|]. split; [reflexivity|]. right. split; [reflexivity|].
    now eexists.
  - split; [reflexivity|]. split; [reflexivity|]. right. split; [reflexivity|].
    now eexists.
Qed.

(** X10.  The resolver marks a captured download as complete exactly when the
    file of the download was read. *)
Theorem captured_download_is_complete_iff_read (normalizedUrl : string)
    (download : DownloadUtils.Download) :
  doc_complete
    (Resolver.download_result normalizedUrl
       (DownloadUtils.handlePlaywrightDownload readFile download)) = true <->
  exists file content,
    DownloadUtils.dl_path download = Returned (Some file) /\
    Js.truthy file = true /\
    readFile file = Returned content.
Proof.
  unfold Resolver.download_result. cbn [doc_complete].
  unfold DownloadUtils.handlePlaywrightDownload.
  destruct (DownloadUtils.dl_path download) as [[file|]|message] eqn:Hp.
  - destruct (Js.truthy file) eqn:Ht.
    + destruct (readFile file) as [content|message] eqn:Hr; cbn.
      * split; [|reflexivity]. intros _. exists file, content. auto.
      * split; [discriminate|]. intros (f & c & [= <-] & _ & Hc). congruence.
    + cbn. split; [discriminate|]. intros (f & c & [= <-] & Hf & _). congruence.
  - cbn. split; [discriminate|]. intros (f & c & [=] & _).
  - cbn. split; [discriminate|]. intros (f & c & [=] & _).
Qed.
End PlaywrightDownloads.

(** X11.  The type that the resolver gives to a download never contradicts the
    download helper: it is the type that [inferContentType] finds for the
    file name, or [application/octet-stream]. *)
Theorem resolver_type_agrees_with_helper (normalizedUrl : string) (download : DownloadInfo) :
  doc_type (Resolver.download_result normalizedUrl download)
  = DownloadUtils.inferContentType (Some (d_filename download)) \/
  doc_type (Resolver.download_result normalizedUrl download) = DownloadUtils.octet_stream.
Proof.
  unfold Resolver.download_result. cbn [doc_type].
  destruct (Js.endsWith (Js.toLowerCase (d_filename download)) ".pdf") eqn:E1.
  { left. apply endsWith_inv in E1 as [x Hx].
    rewrite (inferContentType_of_suffix _ x "pdf" Hx eq_refl eq_refl).
    vm_compute. reflexivity. }
  destruct (Js.endsWith (Js.toLowerCase (d_filename download)) ".doc") eqn:E2.
  { left. apply endsWith_inv in E2 as [x Hx].
    rewrite (inferContentType_of_suffix _ x "doc" Hx eq_refl eq_refl).
    vm_compute. reflexivity. }
  destruct (Js.endsWith (Js.toLowerCase (d_filename download)) ".docx") eqn:E3.
  { left. apply endsWith_inv in E3 as [x Hx].
    rewrite (inferContentType_of_suffix _ x "docx" Hx eq_refl eq_refl).
    vm_compute. reflexivity. }
  right. reflexivity.
Qed.

(** ** [DomAdapter.fetch] *)

Lemma append_cons (c : ascii) (a b : string) : String c a ++ b = String c (a ++ b).
Proof. reflexivity. Qed.

Lemma append_nil (b : string) : EmptyString ++ b = b.
Proof. reflexivity. Qed.

Lemma dom_key_inj (u1 u2 : string) :
  DomFetch.getCacheKey u1 = DomFetch.getCacheKey u2 -> u1 = u2.
Proof.
  unfold DomFetch.getCacheKey. rewrite !append_cons, !append_nil.
  intros [= E]. now apply encode_inj.
Qed.

Section FetchFacts.
Variable isUrl : string -> bool.
Variable loadEnvConfig : DomFetch.FetchOptions -> DomFetch.FetchOptions.
Variable request : string -> gmap string string -> Z -> outcome DomFetch.Response.
Variable happy_dom : string -> outcome string.
Variable select_anchors : string -> list CheerioAnchor.

(** X12.  An empty URL and a URL that [isUrl] rejects fail with a validation
    error, whatever the options, the cache and the network hold. *)
Theorem fetch_rejects_invalid_url (url : string) (options : DomFetch.FetchOptions)
    (store : gmap string (DomFetch.Page * Z)) :
  Js.truthy url = false \/ isUrl url = false ->
  exists message,
    DomFetch.fetch isUrl loadEnvConfig request happy_dom select_anchors url options store
    = (store, DomFetch.Failed (DomFetch.ValidationError message)).
Proof.
  unfold DomFetch.fetch. intros [-> | H]; cbn [negb]; [now eexists|].
  destruct (Js.truthy url); cbn [negb]; [|now eexists].
  rewrite H. cbn [negb]. now eexists.
Qed.

(** X13.  A fetch that fails leaves the cache as it was, and it fails with a
    validation error exactly when the URL is empty or rejected by [isUrl]:
    an HTTP status of 400 or more and every failure of the network are
    network errors. *)
Theorem fetch_failure_keeps_store (url : string) (options : DomFetch.FetchOptions)
    (store store' : gmap string (DomFetch.Page * Z)) (e : DomFetch.FetchError) :
  DomFetch.fetch isUrl loadEnvConfig request happy_dom select_anchors url options store
  = (store', DomFetch.Failed e) ->
  store' = store /\
  ((exists message, e = DomFetch.ValidationError message) <->
   (Js.truthy url = false \/ isUrl url = false)).
Proof.
  unfold DomFetch.fetch.
  destruct (Js.truthy url) eqn:Ht; cbn [negb].
  2: { intros [= <- <-]. split; [reflexivity|]. split; [now left | now eexists]. }
  destruct (isUrl url) eqn:Hu; cbn [negb].
  2: { intros [= <- <-]. split; [reflexivity|]. split; [now right | now eexists]. }
  assert (Hne : forall m,
            (exists message, DomFetch.NetworkError m = DomFetch.ValidationError message)
            <-> (true = false \/ true = false)).
  { intros m. split; [intros [? ?]; discriminate | intros [?|?]; discriminate]. }
  destruct (if default true (DomFetch.f_cache (loadEnvConfig options))
            then fst <$> store !! DomFetch.getCacheKey url else None); [discriminate|].
  destruct (request url _ _) as [response|message].
  2: { intros [= <- <-]. split; [reflexivity | apply Hne]. }
  destruct (400 <=? DomFetch.statusCode response)%Z.
  { intros [= <- <-]. split; [reflexivity | apply Hne]. }
  destruct (DomFetch.body_text response) as [rawContent|message].
  2: { intros [= <- <-]. split; [reflexivity | apply Hne]. }
  destruct (default true (DomFetch.f_cache (loadEnvConfig options))); discriminate.
Qed.


(** X15.  The cache holds well-formed pages only, each under the key of its own
    URL, and a fetch keeps it so; the page that a fetch returns, from the
    network or from the cache, is a well-formed page of the requested URL. *)
Theorem fetched_pages_are_well_formed (url : string) (options : DomFetch.FetchOptions)
    (store store' : gmap string (DomFetch.Page * Z)) (page : DomFetch.Page) :
  Reference.store_ok happy_dom select_anchors store ->
  DomFetch.fetch isUrl loadEnvConfig request happy_dom select_anchors url options store
  = (store', DomFetch.Fetched page) ->
  DomFetch.p_url page = url /\
  Reference.page_ok happy_dom select_anchors page /\
  Reference.store_ok happy_dom select_anchors store'.
Proof.
  intros Hok. unfold DomFetch.fetch.
  destruct (Js.truthy url); cbn [negb]; [|discriminate].
  destruct (isUrl url); cbn [negb]; [|discriminate].
  destruct (if default true (DomFetch.f_cache (loadEnvConfig options))
            then fst <$> store !! DomFetch.getCacheKey url else None) as [cached|] eqn:Hhit.
  - intros [= <- <-].
    destruct (default true (DomFetch.f_cache (loadEnvConfig options))); [|discriminate].
    destruct (store !! DomFetch.getCacheKey url) as [[cached' ttl]|] eqn:Hs; [|discriminate].
    injection Hhit as <-. destruct (Hok _ _ Hs) as [Hk Hp]. cbn [fst] in *.
    split; [symmetry; now apply dom_key_inj|]. split; assumption.
  - destruct (request url _ _) as [response|message]; [|discriminate].
    destruct (400 <=? DomFetch.statusCode response)%Z eqn:Hcode; [discriminate|].
    destruct (DomFetch.body_text response) as [rawContent|message]; [|discriminate].
    apply Z.leb_gt in Hcode.
    assert (Hp : Reference.page_ok happy_dom select_anchors
                   {| DomFetch.p_url := url;
                      DomFetch.p_content := DomFetch.processHtml happy_dom rawContent;
                      DomFetch.p_links :=
                        DomAdapter.extractLinks select_anchors
                          (DomFetch.processHtml happy_dom rawContent);
                      DomFetch.p_statusCode := DomFetch.statusCode response;
                      DomFetch.p_rawContent := rawContent |}).
    { split; [reflexivity|]. split; [reflexivity|]. cbn. lia. }
    destruct (default true (DomFetch.f_cache (loadEnvConfig options))); intros [= <- <-].
    + split; [reflexivity|]. split; [exact Hp|].
      apply map_Forall_insert_2; [|exact Hok]. split; [reflexivity | exact Hp].
    + split; [reflexivity|]. split; [exact Hp | exact Hok].
Qed.
End FetchFacts.

Lemma fetch_rejects_invalid_url_witness :
  exists message,
    DomFetch.fetch Sample.isUrl (fun o => o) Sample.request Returned Sample.select_anchors
      "ftp/readme" Sample.no_fetch_options ∅
    = (∅, DomFetch.Failed (DomFetch.ValidationError message)).
Proof.
  apply (fetch_rejects_invalid_url Sample.isUrl (fun o => o) Sample.request Returned
           Sample.select_anchors "ftp/readme" Sample.no_fetch_options ∅).
  right. reflexivity.
Defined.

(** The server answers [/missing] with the status 404. *)
Lemma fetch_failure_keeps_store_witness :
  exists store' e,
    DomFetch.fetch Sample.isUrl (fun o => o) Sample.request Returned Sample.select_anchors
      "https://x/missing" Sample.no_fetch_options ∅
    = (store', DomFetch.Failed e) /\
    store' = ∅ /\ e = DomFetch.NetworkError "HTTP 404: Request failed".
Proof.
  destruct (DomFetch.fetch Sample.isUrl (fun o => o) Sample.request Returned
              Sample.select_anchors "https://x/missing" Sample.no_fetch_options ∅)
    as [store' [page|e]] eqn:E;
    [apply (f_equal snd) in E; vm_compute in E; discriminate|].
  exists store', e. split; [reflexivity|].
  split; [exact (proj1 (fetch_failure_keeps_store _ _ _ _ _ _ _ _ _ _ E))|].
  apply (f_equal snd) in E. vm_compute in E. now injection E as <-.
Defined.


Lemma fetched_pages_are_well_formed_witness :
  exists store' page,
    DomFetch.fetch Sample.isUrl (fun o => o) Sample.request Returned Sample.select_anchors
      "https://x/a" Sample.no_fetch_options ∅
    = (store', DomFetch.Fetched page) /\
    DomFetch.p_url page = "https://x/a" /\
    length (DomFetch.p_links page) = 2.
Proof.
  destruct (DomFetch.fetch Sample.isUrl (fun o => o) Sample.request Returned
              Sample.select_anchors "https://x/a" Sample.no_fetch_options ∅)
    as [store' [page|e]] eqn:E;
    [|apply (f_equal snd) in E; vm_compute in E; discriminate].
  exists store', page. split; [reflexivity|].
  destruct (fetched_pages_are_well_formed Sample.isUrl (fun o => o) Sample.request Returned
              Sample.select_anchors _ _ _ _ _ (map_Forall_empty _) E) as (Hu & _ & _).
  split; [exact Hu|].
  apply (f_equal snd) in E. vm_compute in E. now injection E as <-.
Defined.

(** ** The cache keys of the adapters *)

(** X16.  Within an adapter two URLs share a cache key only when they are the same
    URL, and no key of one adapter or of the tree scraper is a key of
    another, so the adapters can share one cache directory. *)
Theorem adapter_cache_keys :
  (forall u1 u2, DomFetch.getCacheKey u1 = DomFetch.getCacheKey u2 <-> u1 = u2) /\
  (forall u1 u2, CrawleeAdapter.getCacheKey u1 = CrawleeAdapter.getCacheKey u2 <-> u1 = u2) /\
  (forall u1 u2, Crawl4aiAdapter.getCacheKey u1 = Crawl4aiAdapter.getCacheKey u2 <-> u1 = u2) /\
  (forall u1 u2, DomFetch.getCacheKey u1 <> CrawleeAdapter.getCacheKey u2) /\
  (forall u1 u2, DomFetch.getCacheKey u1 <> Crawl4aiAdapter.getCacheKey u2) /\
  (forall u1 u2, CrawleeAdapter.getCacheKey u1 <> Crawl4aiAdapter.getCacheKey u2) /\
  (forall options u1 o u2,
     getCacheKey options u1 o <> DomFetch.getCacheKey u2 /\
     getCacheKey options u1 o <> CrawleeAdapter.getCacheKey u2 /\
     getCacheKey options u1 o <> Crawl4aiAdapter.getCacheKey u2).
Proof.
  unfold DomFetch.getCacheKey, CrawleeAdapter.getCacheKey, Crawl4aiAdapter.getCacheKey,
    getCacheKey.
  repeat split; intros; rewrite ?append_cons, ?append_nil in *;
    try discriminate; try congruence.
  all: match goal with
       | H : _ = _ |- _ => injection H as H; now apply encode_inj
       end.
Qed.

(** ** The links of the DOM adapter *)

Lemma split_space_aux_pieces (s cur piece : string) :
  Reference.all_in (fun c => negb (Ascii.eqb c " ")) cur = true ->
  piece ∈ Js.split_space_aux s cur ->
  Reference.all_in (fun c => negb (Ascii.eqb c " ")) piece = true.
Proof.
  revert cur. induction s as [|c s IH]; intros cur Hcur; simpl.
  - intros H. apply list_elem_of_singleton in H as ->. exact Hcur.
  - destruct (Ascii.eqb c " ") eqn:Ec.
    + intros H. apply elem_of_cons in H as [->|H]; [exact Hcur|].
      now apply (IH EmptyString).
    + apply IH. rewrite all_in_app, Hcur. simpl. now rewrite Ec.
Qed.

Lemma omap_length_le {A B : Type} (f : A -> option B) (l : list A) :
  length (omap f l) <= length l.
Proof.
  induction l as [|a l IH]; [reflexivity|].
  cbn. destruct (f a); simpl; lia.
Qed.

Section DomLinks.
Variable select_anchors : string -> list CheerioAnchor.

(** X17.  [DomAdapter.extractLinks] returns at most one link for every anchor of
    the document, in document order; every link has a non-empty [href], and
    the class list of a link, when it has one, holds no blank token and no
    token with a space in it. *)
Theorem dom_links_are_well_formed (html : string) :
  length (DomAdapter.extractLinks select_anchors html) <= length (select_anchors html) /\
  forall link,
    link ∈ DomAdapter.extractLinks select_anchors html ->
    Js.truthy (href link) = true /\
    forall tokens token,
      classes link = Some tokens -> token ∈ tokens ->
      Js.truthy (Js.trim token) = true /\
      Reference.all_in (fun c => negb (Ascii.eqb c " ")) token = true.
Proof.
  unfold DomAdapter.extractLinks. split; [apply omap_length_le|].
  intros link Hin. apply list_elem_of_omap in Hin as (a & _ & Ha).
  unfold DomAdapter.link_of_anchor in Ha.
  destruct (attrs a !! "href") as [h|]; [|discriminate].
  destruct (Js.truthy h) eqn:Hh; [|discriminate].
  injection Ha as <-. split; [exact Hh|]. cbn [classes].
  intros tokens token Ht Hin.
  destruct (attrs a !! "class") as [c|]; [|discriminate].
  destruct (Js.truthy c); [|discriminate]. injection Ht as <-.
  unfold class_tokens in Hin. apply list_elem_of_In, filter_In in Hin as [Hin Htr].
  split; [exact Htr|].
  apply (split_space_aux_pieces c EmptyString); [reflexivity | now apply list_elem_of_In].
Qed.
End DomLinks.

(** ** The links of a tree expansion *)

Lemma keyed_set (m : JsMap.t Link) (l : Link) :
  Reference.keyed m -> Reference.keyed (JsMap.set m (href l) l).
Proof.
  unfold Reference.keyed. induction m as [|[k v] m IH]; simpl; intros H.
  - constructor; [reflexivity | constructor].
  - inversion H as [|? ? Hkv Hm]; subst.
    destruct (String.eqb_spec k (href l)) as [->|Hne].
    + constructor; [reflexivity | assumption].
    + constructor; [assumption | now apply IH].
Qed.

Lemma keyed_merge (links : list Link) (m : JsMap.t Link) :
  Reference.keyed m -> Reference.keyed (merge_links m links).
Proof.
  revert m. induction links as [|l links IH]; intros m H; [exact H|].
  rewrite merge_links_cons. now apply IH, keyed_set.
Qed.

Lemma keyed_hrefs (m : JsMap.t Link) :
  Reference.keyed m -> map href (JsMap.values m) = JsMap.keys m.
Proof.
  unfold Reference.keyed, JsMap.values, JsMap.keys.
  induction 1 as [|[k v] m Hkv _ IH]; [reflexivity|].
  simpl in *. now rewrite Hkv, IH.
Qed.

Lemma merge_fresh (links : list Link) (m : JsMap.t Link) :
  NoDup (JsMap.keys m ++ map href links)%list ->
  merge_links m links = (m ++ map (fun l => (href l, l)) links)%list.
Proof.
  revert m. induction links as [|l links IH]; intros m H.
  - simpl. now rewrite app_nil_r.
  - rewrite merge_links_cons.
    assert (Hf : JsMap.has m (href l) = false).
    { destruct (JsMap.has m (href l)) eqn:E; [|reflexivity].
      apply has_keys in E. apply NoDup_app in H as (_ & H & _).
      destruct (H _ E). simpl. left. }
    rewrite (set_fresh _ _ _ Hf), IH.
    + simpl. now rewrite <- app_assoc.
    + unfold JsMap.keys in *. rewrite map_app. simpl. rewrite <- app_assoc. exact H.
Qed.

Lemma collect_links_hrefs (anchors : list DomAnchor) :
  map href (collect_links anchors) = map el_href (Reference.first_per_href ∅ anchors).
Proof. rewrite collect_links_first, map_map. reflexivity. Qed.

Lemma collect_links_NoDup (anchors : list DomAnchor) :
  NoDup (map href (collect_links anchors)).
Proof. rewrite collect_links_hrefs. apply first_per_href_NoDup. Qed.

Lemma initial_map (links : list Link) :
  NoDup (map href links) ->
  merge_links JsMap.empty links = map (fun l => (href l, l)) links.
Proof. intros H. now rewrite merge_fresh. Qed.

Lemma values_of_entries (links : list Link) :
  JsMap.values (map (fun l => (href l, l)) links) = links.
Proof.
  unfold JsMap.values. rewrite map_map. simpl. apply map_id.
Qed.

Lemma keys_of_entries (links : list Link) :
  JsMap.keys (map (fun l => (href l, l)) links) = map href links.
Proof. unfold JsMap.keys. now rewrite map_map. Qed.

Section LinkMaps.
Context {World Element : Type}.
Variable page : Browser World Element.
Variable options : TreeScraperOptions.

(** A property of the link map that merging a pass keeps. *)
Variable Q : JsMap.t Link -> Prop.
Hypothesis Q_merge : forall m links, Q m -> Q (merge_links m links).

Lemma selectors_loop_links (selectors : list string) st c w w' st' c' :
  Q (linkMap st) ->
  selectors_loop page options selectors st c w = (w', Returned (st', c')) ->
  Q (linkMap st').
Proof.
  apply (selectors_loop_keeps page options (fun s _ => Q (linkMap s))); auto.
  intros s _ links. apply Q_merge.
Qed.

Lemma iterate_links (remaining : nat) :
  forall st e w w' st',
    Q (linkMap st) ->
    iterate page options remaining st e w = (w', Returned st') ->
    Q (linkMap st').
Proof.
  induction remaining as [|n IH]; intros st e w w' st' HQ E.
  - rewrite iterate_O in E. now injection E as _ <-.
  - rewrite iterate_S in E.
    destruct (selectors_loop page options _ st 0 w) as [w1 [[st1 c]|err]] eqn:E1;
      [|discriminate].
    pose proof (selectors_loop_links _ _ _ _ _ _ _ HQ E1) as H1.
    destruct (c =? 0)%nat.
    + destruct (maxConsecutiveEmpty <=? S e)%nat.
      * now injection E as _ <-.
      * exact (IH (end_iteration st1 c) _ _ _ _ H1 E).
    + exact (IH (end_iteration st1 c) _ _ _ _ H1 E).
Qed.
End LinkMaps.

Section ExpandedLinks.
Context {World Element : Type}.
Variable page : Browser World Element.
Variable options : TreeScraperOptions.

Lemma expansion_links (w w1 w' : World)
    (anchors : list DomAnchor) (links : list Link) (n : nat) :
  query_anchors page w = (w1, Returned anchors) ->
  extractLinksWithTreeExpansion page options w = (w', Returned (links, n)) ->
  NoDup (map href links) /\
  exists added, map href links = (map href (collect_links anchors) ++ added)%list.
Proof.
  unfold extractLinksWithTreeExpansion, expand. intros Hq E. rewrite Hq in E.
  destruct (iterate page options _ _ 0 w1) as [w2 [st|e]] eqn:Ei; [|discriminate].
  injection E as _ <- _.
  set (Q := fun m : JsMap.t Link =>
              Reference.keyed m /\ NoDup (JsMap.keys m) /\
              exists added,
                JsMap.keys m = (map href (collect_links anchors) ++ added)%list).
  assert (Hm : forall m ls, Q m -> Q (merge_links m ls)).
  { intros m ls (Hk & Hnd & added & Ha).
    split; [now apply keyed_merge|]. split; [now apply merge_keys_NoDup|].
    destruct (merge_keys_prefix ls m) as [more ->].
    exists (added ++ more)%list. now rewrite Ha, app_assoc. }
  assert (H0 : Q (linkMap (initial_state (collect_links anchors)))).
  { unfold initial_state. cbn [linkMap].
    rewrite (initial_map _ (collect_links_NoDup anchors)).
    split.
    - unfold Reference.keyed. apply Forall_forall. intros [k v] Hin.
      apply list_elem_of_fmap in Hin as (l & [= -> ->] & _). reflexivity.
    - rewrite keys_of_entries. split; [apply collect_links_NoDup|].
      exists []. now rewrite app_nil_r. }
  destruct (iterate_links page options Q Hm _ _ _ _ _ _ H0 Ei) as (Hk & Hnd & added & Ha).
  rewrite (keyed_hrefs _ Hk). split; [exact Hnd | now exists added].
Qed.


Lemma selectors_loop_flat (selectors : list string) (st : Expansion) (w : World) :
  (forall selector w, selector ∈ selectors -> query_all page selector w = (w, Returned [])) ->
  selectors_loop page options selectors st 0 w = (w, Returned (st, 0)).
Proof.
  induction selectors as [|selector rest IH]; intros H; [reflexivity|].
  simpl. rewrite (H selector w) by left. simpl.
  apply IH. intros s w0 Hs. apply H. now right.
Qed.

Lemma iterate_flat (remaining : nat) :
  (forall selector w, selector ∈ all_selectors options ->
                      query_all page selector w = (w, Returned [])) ->
  forall st e w,
    exists st',
      iterate page options remaining st e w = (w, Returned st') /\
      linkMap st' = linkMap st /\ interactionCount st' = interactionCount st.
Proof.
  intros H. induction remaining as [|n IH]; intros st e w.
  - exists st. rewrite iterate_O. auto.
  - rewrite iterate_S, (selectors_loop_flat _ st w H). cbn [Nat.eqb].
    destruct (maxConsecutiveEmpty <=? S e)%nat.
    + eexists. split; [reflexivity | split; reflexivity].
    + destruct (IH (end_iteration st 0) (S e) w) as (st' & E & Hl & Hc).
      exists st'. split; [exact E|]. split; [exact Hl | exact Hc].
Qed.

(** X19.  On a page where none of the selectors matches an element, the expansion
    clicks nothing and returns exactly the links of the first pass. *)
Theorem flat_page_is_static (w w1 : World) (anchors : list DomAnchor) :
  (forall selector w, selector ∈ all_selectors options ->
                      query_all page selector w = (w, Returned [])) ->
  query_anchors page w = (w1, Returned anchors) ->
  extractLinksWithTreeExpansion page options w
  = (w1, Returned (collect_links anchors, 0)).
Proof.
  intros Hflat Hq. unfold extractLinksWithTreeExpansion, expand. rewrite Hq.
  destruct (iterate_flat (Z.to_nat (iteration_bound options)) Hflat
              (initial_state (collect_links anchors)) 0 w1) as (st & -> & Hl & Hc).
  rewrite Hl, Hc. unfold initial_state. cbn [linkMap interactionCount].
  now rewrite (initial_map _ (collect_links_NoDup anchors)), values_of_entries.
Qed.
End ExpandedLinks.


Lemma flat_page_is_static_witness :
  extractLinksWithTreeExpansion (Sample.browser 0) (constructor Sample.no_options)
    Sample.start
  = (Sample.start, Returned (collect_links (Sample.anchors_of Sample.start), 0)).
Proof.
  apply (flat_page_is_static (Sample.browser 0) (constructor Sample.no_options)
           Sample.start Sample.start (Sample.anchors_of Sample.start)); [|reflexivity].
  intros selector w Hs. apply list_elem_of_In in Hs.
  repeat (destruct Hs as [<-|Hs]; [reflexivity|]). destruct Hs.
Defined.

(** ** [scrape]: the results of the crawler and the cache *)

Section CrawledResults.
Context {World Element : Type}.
Variable page : Browser World Element.
Variable run_crawler : string -> World -> CrawlRun World.
Variable options : TreeScraperOptions.

Lemma load_and_expand_shape url startTime time_out w w' r :
  load_and_expand page options url startTime time_out w = (w', Returned r) ->
  exists w2 w3 content links n duration,
    extractLinksWithTreeExpansion page options w2 = (w3, Returned (links, n)) /\
    r = page_result page options url w' content links n duration.
Proof.
  unfold load_and_expand. intros E.
  destruct (wait_for_load_state page time_out w) as [w1 [[]|e]]; [|discriminate].
  destruct (wait_for_timeout page 1000 w1) as [w2 [[]|e]]; [|discriminate].
  destruct (extractLinksWithTreeExpansion page options w2) as [w3 [[links n]|e]] eqn:Ex;
    [|discriminate].
  destruct (page_content page w3) as [w4 [content|e]]; [|discriminate].
  injection E as <- <-. now exists w2, w3, content, links, n, (now page w4 - startTime)%Z.
Qed.

Lemma download_or_error_shape url startTime message error w w' captured r :
  download_or_error page url startTime message error w = (w', captured) ->
  scrapeResult captured = Some r ->
  exists d ds duration, r = download_result url (d :: ds) duration.
Proof.
  unfold download_or_error. intros E Hr.
  destruct (isDownloadError message).
  - destruct (downloads_of page (sleep page 2000 w)) as [|d ds];
      injection E as _ <-; simpl in Hr; [discriminate|].
    injection Hr as <-. now eexists _, _, _.
  - injection E as _ <-. discriminate.
Qed.

(** The two shapes of a result that comes from the crawler. *)
Lemma crawled_result_shape url opts store w w' store' r :
  cache opts = Some false \/ cache_get store (getCacheKey options url opts) = None ->
  scrape page run_crawler options url opts store w = (w', store', Returned r) ->
  (exists w2 w3 w4 content links n duration,
     extractLinksWithTreeExpansion page options w2 = (w3, Returned (links, n)) /\
     r = page_result page options url w4 content links n duration) \/
  (exists d ds duration, r = download_result url (d :: ds) duration).
Proof.
  intros Hmiss E.
  assert (Hm : (if default true (cache opts)
                then cache_get store (getCacheKey options url opts) else None) = None).
  { destruct Hmiss as [-> | ->]; [reflexivity | now destruct (default true (cache opts))]. }
  destruct (scrape_miss page run_crawler options url opts store w Hm)
    as (w1 & captured & Ec & Es).
  rewrite Es in E.
  destruct (scrapeError captured) eqn:He; [discriminate|].
  destruct (scrapeResult captured) as [result|] eqn:Hr; [|discriminate].
  assert (result = r) as ->.
  { destruct (default true (cache opts)); now injection E. }
  destruct (run_crawler url _) as [wp|wp message|wp|wp message].
  - unfold requestHandler in Ec.
    destruct (load_and_expand page options url _ _ wp) as [w2 [r'|e]] eqn:El.
    + injection Ec as _ <-. injection Hr as <-. left.
      destruct (load_and_expand_shape _ _ _ _ _ _ El)
        as (u2 & u3 & content & links & n & duration & Hx & ->).
      now exists u2, u3, w2, content, links, n, duration.
    + right. exact (download_or_error_shape _ _ _ _ _ _ _ _ Ec Hr).
  - right. exact (download_or_error_shape _ _ _ _ _ _ _ _ Ec Hr).
  - injection Ec as _ <-. discriminate.
  - injection Ec as _ <-. discriminate.
Qed.

(** X20.  A result that comes from the crawler is always marked complete, its
    link count is the number of its links, no two of its links share an
    [href], and when it is marked as a download it carries at least one
    captured download. *)
Theorem crawled_result_is_consistent url opts store w w' store' r :
  cache opts = Some false \/ cache_get store (getCacheKey options url opts) = None ->
  scrape page run_crawler options url opts store w = (w', store', Returned r) ->
  m_complete (r_metrics r) = true /\
  m_linkCount (r_metrics r) = length (r_links r) /\
  NoDup (map href (r_links r)) /\
  (raw_isDownload (r_raw r) = true ->
   exists d ds, raw_downloads (r_raw r) = Some (d :: ds)).
Proof.
  intros Hmiss E.
  destruct (crawled_result_shape _ _ _ _ _ _ _ Hmiss E)
    as [(w2 & w3 & w4 & content & links & n & duration & Hx & ->) | (d & ds & duration & ->)].
  - split; [reflexivity|]. split; [reflexivity|]. split; [|discriminate].
    cbn [page_result r_links].
    destruct (query_anchors page w2) as [u [anchors|e]] eqn:Hq.
    + exact (proj1 (expansion_links _ _ _ _ _ _ _ _ Hq Hx)).
    + unfold extractLinksWithTreeExpansion, expand in Hx. rewrite Hq in Hx. discriminate.
  - split; [reflexivity|]. split; [reflexivity|]. split; [constructor|].
    intros _. now exists d, ds.
Qed.


End CrawledResults.

Section ResolvedDownloads.
Context {World Element : Type}.
Variable page : Browser World Element.
Variable run_crawler : string -> World -> CrawlRun World.
Variable options : TreeScraperOptions.
Variable new_URL : string -> option URL.

End ResolvedDownloads.

Lemma cache_get_empty (key : string) : cache_get ∅ key = None.
Proof. unfold cache_get. now rewrite lookup_empty. Qed.

(** The page of the sample site through [scrape]. *)
Lemma crawled_result_is_consistent_witness :
  exists w' store' r,
    scrape (Sample.browser 1) Sample.loads (constructor Sample.no_options)
      "https://x/index" Sample.no_scrape_options ∅ Sample.start
    = (w', store', Returned r) /\
    m_linkCount (r_metrics r) = length (r_links r) /\
    NoDup (map href (r_links r)).
Proof.
  destruct (scrape (Sample.browser 1) Sample.loads (constructor Sample.no_options)
              "https://x/index" Sample.no_scrape_options ∅ Sample.start)
    as [[w' store'] [r|e]] eqn:E;
    [|apply (f_equal snd) in E; vm_compute in E; discriminate].
  exists w', store', r. split; [reflexivity|].
  destruct (crawled_result_is_consistent (Sample.browser 1) Sample.loads
              (constructor Sample.no_options) "https://x/index" Sample.no_scrape_options
              ∅ Sample.start w' store' r (or_intror (cache_get_empty _)) E) as (_ & Hc & Hn & _).
  split; [exact Hc | exact Hn].
Defined.




(** ** The in-page expansion of the crawlee adapter *)

Section CrawleeLinks.
Context {World Element : Type} `{EqDecision Element}.
Variable document : CrawleeAdapter.Document World Element.

Lemma extract_into_spec (m : JsMap.t Link) (anchors : list DomAnchor) :
  CrawleeAdapter.extract_into m anchors
  = (m ++ map Reference.entry_of
            (Reference.first_per_href (list_to_set (JsMap.keys m)) anchors))%list.
Proof. apply collect_fold. Qed.

Lemma entry_of_keyed (anchors : list DomAnchor) :
  Reference.keyed (map Reference.entry_of anchors).
Proof.
  unfold Reference.keyed. apply Forall_forall. intros entry Hin.
  apply list_elem_of_fmap in Hin as (a & -> & _). reflexivity.
Qed.

(** What one extraction keeps: the entries that are there stay as they are,
    the map stays keyed and free of duplicates, and it covers the anchors
    that were read. *)
Lemma extract_into_keeps (m : JsMap.t Link) (anchors : list DomAnchor) :
  Reference.keyed m -> NoDup (JsMap.keys m) ->
  (exists added, CrawleeAdapter.extract_into m anchors = (m ++ added)%list) /\
  Reference.keyed (CrawleeAdapter.extract_into m anchors) /\
  NoDup (JsMap.keys (CrawleeAdapter.extract_into m anchors)) /\
  (forall a, a ∈ anchors -> el_href a ∈ JsMap.keys (CrawleeAdapter.extract_into m anchors)).
Proof.
  intros Hk Hnd. rewrite extract_into_spec.
  split; [now eexists|]. split; [|split].
  - unfold Reference.keyed. apply Forall_app. split; [exact Hk | apply entry_of_keyed].
  - unfold JsMap.keys. rewrite map_app, map_map. apply NoDup_app.
    split; [exact Hnd|]. split; [|apply first_per_href_NoDup].
    intros k Hin Hin'. apply list_elem_of_fmap in Hin' as (a & -> & Ha).
    apply first_per_href_fresh in Ha as [Hn _]. apply Hn.
    now apply elem_of_list_to_set.
  - intros a Ha. unfold JsMap.keys. rewrite map_app, map_map.
    apply elem_of_app.
    destruct (decide (el_href a ∈ map fst m)) as [Hin|Hn]; [now left|]. right.
    apply (first_per_href_covers anchors (list_to_set (map fst m)) a Ha).
    intros Hin. apply Hn. now apply elem_of_list_to_set in Hin.
Qed.

Lemma rounds_keep (remaining : nat) :
  forall w m clicked w' m',
    Reference.keyed m -> NoDup (JsMap.keys m) ->
    (forall a, a ∈ CrawleeAdapter.link_elements document w -> el_href a ∈ JsMap.keys m) ->
    CrawleeAdapter.rounds document remaining w m clicked = (w', m') ->
    (exists added, m' = (m ++ added)%list) /\
    Reference.keyed m' /\ NoDup (JsMap.keys m') /\
    (forall a, a ∈ CrawleeAdapter.link_elements document w' -> el_href a ∈ JsMap.keys m').
Proof.
  induction remaining as [|n IH]; intros w m clicked w' m' Hk Hnd Hcov E; simpl in E.
  - injection E as <- <-. split; [exists []; now rewrite app_nil_r | auto].
  - destruct (extract_into_keeps m
                (CrawleeAdapter.link_elements document
                   (CrawleeAdapter.world (CrawleeAdapter.click_round document w clicked)))
                Hk Hnd) as ([added Ha] & Hk1 & Hnd1 & Hcov1).
    destruct (CrawleeAdapter.clickedCount _ =? 0)%nat.
    + injection E as <- <-. split; [now exists added | auto].
    + destruct (IH _ _ _ _ _ Hk1 Hnd1 Hcov1 E) as ([more Hm] & Hk2 & Hnd2 & Hcov2).
      split; [|auto]. exists (added ++ more)%list.
      now rewrite Hm, Ha, app_assoc.
Qed.

(** X24.  The in-page expansion of the crawlee adapter is first-wins throughout:
    the links of the first extraction come first in the result, with the
    records they had before any click; no two links of the result share an
    [href]; and every anchor of the document as the expansion leaves it has
    its [href] among the links. *)
Theorem crawlee_links_first_record_wins (w : World) :
  (exists added,
     snd (CrawleeAdapter.extractLinks document w)
     = (collect_links (CrawleeAdapter.link_elements document w) ++ added)%list) /\
  NoDup (map href (snd (CrawleeAdapter.extractLinks document w))) /\
  (forall a,
     a ∈ CrawleeAdapter.link_elements document (fst (CrawleeAdapter.extractLinks document w)) ->
     el_href a ∈ map href (snd (CrawleeAdapter.extractLinks document w))).
Proof.
  unfold CrawleeAdapter.extractLinks.
  destruct (extract_into_keeps JsMap.empty (CrawleeAdapter.link_elements document w)
              (Forall_nil_2 _) (NoDup_nil_2)) as (_ & Hk & Hnd & Hcov).
  destruct (CrawleeAdapter.rounds document 3 w _ []) as [w' m'] eqn:E.
  destruct (rounds_keep _ _ _ _ _ _ Hk Hnd Hcov E) as ([added ->] & Hk' & Hnd' & Hcov').
  cbn [fst snd]. rewrite (keyed_hrefs _ Hk').
  split; [|split; assumption].
  exists (JsMap.values added). unfold JsMap.values. rewrite map_app. reflexivity.
Qed.
End CrawleeLinks.

(** The sample page through the in-page expansion: the index anchor keeps
    the record of the first extraction. *)
Lemma crawlee_links_first_record_wins_witness :
  exists added,
    snd (CrawleeAdapter.extractLinks (Sample.document 1) Sample.start)
    = (collect_links (Sample.anchors_of Sample.start) ++ added)%list.
Proof.
  exact (proj1 (crawlee_links_first_record_wins (Sample.document 1) Sample.start)).
Defined.

(** ** Download errors *)

Lemma includes_prepend (t s p : string) :
  Js.includes s p = true -> Js.includes (t ++ s) p = true.
Proof.
  intros H. induction t as [|c t IH]; [exact H|].
  rewrite append_cons. cbn [Js.includes]. rewrite IH. apply orb_true_r.
Qed.

(** X25.  A message that announces a download keeps doing so inside a longer
    message: text before it and text behind it never hide the download. *)
Theorem download_error_survives_wrapping (before message after : string) :
  isDownloadError message = true ->
  isDownloadError (before ++ message ++ after) = true.
Proof.
  unfold isDownloadError. intros H. apply orb_true_iff in H as [H|H].
  - now rewrite (includes_prepend before _ _ (includes_app _ after _ H)).
  - rewrite (includes_prepend before _ _ (includes_app _ after _ H)). apply orb_true_r.
Qed.

Lemma download_error_survives_wrapping_witness :
  isDownloadError ("page.goto: " ++ "net::ERR_ABORTED" ++ " at https://x/minutes.pdf") = true.
Proof.
  apply (download_error_survives_wrapping "page.goto: " "net::ERR_ABORTED"
           " at https://x/minutes.pdf").
  reflexivity.
Defined.
